(** * The HA replica tracker of Cortex (package [ha])

    A shallow embedding of [ha_tracker.go]: the configuration and its
    validation, the two typed errors, the local election cache fed by the
    watch callback, the admission check [CheckReplica] with its slow-path
    CAS mutator, and the cleanup sweep.

    Conventions.
    - [time.Duration] is an [int64] count of nanoseconds: a [Z] whose
      additions wrap ([dur_add]).
    - [time.Time] is an instant, a [Z] count of nanoseconds since the Unix
      epoch (wall clock only; Go's range of instants is far wider than
      [int64] nanoseconds, so instants are not wrapped).
    - Go's [error] interface is [option error]: [None] is [nil].
    - A call that may panic has an [outcome]: it returns or it panics.
    - Go maps are [gmap]s, Go sets ([map[string]struct{}]) are [gset]s. *)

From Stdlib Require Import ZArith Lia Bool Ascii.
From stdpp Require Import base option gmap strings list fin_maps.

Local Open Scope Z_scope.

(** ** Go's [time] package and Prometheus' [timestamp] package *)

Module GoTime.

Definition Duration : Type := Z.
Definition Time : Type := Z.

Definition minDuration : Duration := - 2 ^ 63.
Definition maxDuration : Duration := 2 ^ 63 - 1.

(** Two's-complement wrap-around of [int64] arithmetic. *)
Definition wrap64 (z : Z) : Z := (z + 2 ^ 63) mod 2 ^ 64 - 2 ^ 63.

Definition Nanosecond : Duration := 1.
Definition Millisecond : Duration := 1000000.
Definition Second : Duration := 1000000000.
Definition Minute : Duration := 60 * Second.

(** [d1 + d2] on [time.Duration]. *)
Definition dur_add (d1 d2 : Duration) : Duration := wrap64 (d1 + d2).

(** [d1 - d2] and [-d] on [time.Duration]. *)
Definition dur_sub (d1 d2 : Duration) : Duration := wrap64 (d1 - d2).
Definition dur_neg (d : Duration) : Duration := wrap64 (- d).

(** [t.Sub(u)]: the difference, saturated to the [int64] range. *)
Definition Sub (t u : Time) : Duration :=
  if t - u <? minDuration then minDuration
  else if maxDuration <? t - u then maxDuration
  else t - u.

(** [t.Add(d)]. *)
Definition Add (t : Time) (d : Duration) : Time := t + d.

Definition Before (t u : Time) : bool := t <? u.
Definition After (t u : Time) : bool := u <? t.

(** [time.Unix(sec, nsec)]. *)
Definition Unix (sec nsec : Z) : Time := sec * Second + nsec.

(** [t.Unix()] and [t.Nanosecond()]. *)
Definition UnixSeconds (t : Time) : Z := t / Second.
Definition NanosecondOf (t : Time) : Z := t mod Second.

(** [timestamp.Time(ms)]:
    [time.Unix(t/1000, (t%1000)*int64(time.Millisecond))]; Go's [/] and
    [%] truncate towards zero. *)
Definition timestamp_Time (t : Z) : Time :=
  Unix (Z.quot t 1000) (Z.rem t 1000 * Millisecond).

(** [timestamp.FromTime(t)]:
    [t.Unix()*1000 + int64(t.Nanosecond())/int64(time.Millisecond)]. *)
Definition timestamp_FromTime (t : Time) : Z :=
  wrap64 (wrap64 (UnixSeconds t * 1000) + Z.quot (NanosecondOf t) Millisecond).

End GoTime.
Export GoTime.

(** ** Panics, and [math/rand] *)

(** What a call that may panic does. *)
Inductive outcome (A : Type) : Type :=
| Returns (a : A)
| Panics.

Arguments Returns {A} a.
Arguments Panics {A}.

(** [rand.Int63n(n)] panics when [n <= 0] and otherwise returns a number
    of the half-open interval from 0 to [n].  [r] is the raw draw of the
    generator, of which the result is the remainder; every number of the
    interval is the result for some draw. *)
Definition rand_Int63n (n r : Z) : outcome Z :=
  if n <=? 0 then Panics else Returns (r mod n).

(** ** Data model *)

(** Modelled from the spec: the descriptor persisted at a KV key, with its
    three fields (the replica, and two millisecond stamps as signed 64-bit
    integers).  Its Go declaration is generated from [ha_tracker.proto] and
    is not among the sources; the fields are those the tracker reads and
    writes. *)
Record ReplicaDesc : Type := mkReplicaDesc {
  Replica : string;
  ReceivedAt : Z;
  DeletedAt : Z
}.

(** The zero value [ReplicaDesc{}], which a Go map read yields for a
    missing key. *)
Definition zeroReplicaDesc : ReplicaDesc := mkReplicaDesc EmptyString 0 0.

(** [kv.Config], declared by the KV package; of its fields this package
    reads the backend name only. *)
Record kv_Config : Type := mk_kv_Config { Store : string }.

Record HATrackerConfig : Type := mkHATrackerConfig {
  EnableHATracker : bool;
  UpdateTimeout : Duration;
  UpdateTimeoutJitterMax : Duration;
  FailoverTimeout : Duration;
  KVStore : kv_Config
}.

(** ** Errors *)

Record ReplicasNotMatchError : Type := mkReplicasNotMatchError {
  rnm_replica : string;
  rnm_elected : string
}.

Record TooManyReplicaGroupsError : Type := mkTooManyReplicaGroupsError {
  limit : Z
}.

(** Addresses of heap values, for errors held through a pointer. *)
Definition addr : Type := positive.

(** The dynamic values an [error] interface holds in this package.  The
    two typed errors occur by value (as the package creates them) and
    behind a non-nil pointer (which their [Is] methods also recognise).
    The errors built by [Validate] keep the arguments of their format
    string; [errBackend] stands for an error raised by the KV client. *)
Inductive error : Type :=
| ErrReplicasNotMatch (e : ReplicasNotMatchError)
| ErrReplicasNotMatchPtr (p : addr) (e : ReplicasNotMatchError)
| ErrTooManyReplicaGroups (e : TooManyReplicaGroupsError)
| ErrTooManyReplicaGroupsPtr (p : addr) (e : TooManyReplicaGroupsError)
| errNegativeUpdateTimeoutJitterMax
| errInvalidFailoverTimeout (failover minFailure : Duration)
| errInvalidKVStore (store : string)
| errBackend (msg : string).

#[global] Instance ReplicaDesc_eq_dec : EqDecision ReplicaDesc.
Proof. solve_decision. Defined.
#[global] Instance ReplicasNotMatchError_eq_dec : EqDecision ReplicasNotMatchError.
Proof. solve_decision. Defined.
#[global] Instance TooManyReplicaGroupsError_eq_dec : EqDecision TooManyReplicaGroupsError.
Proof. solve_decision. Defined.
#[global] Instance error_eq_dec : EqDecision error.
Proof. solve_decision. Defined.

(** [func (e ReplicasNotMatchError) Is(err error) bool]: the two type
    assertions of [err] to the value type and to the pointer type; both
    fail on a nil interface. *)
Definition ReplicasNotMatchError_Is (e : ReplicasNotMatchError) (err : option error) : bool :=
  let ok1 := match err with Some (ErrReplicasNotMatch _) => true | _ => false end in
  let ok2 := match err with Some (ErrReplicasNotMatchPtr _ _) => true | _ => false end in
  ok1 || ok2.

(** [func (e TooManyReplicaGroupsError) Is(err error) bool]. *)
Definition TooManyReplicaGroupsError_Is (e : TooManyReplicaGroupsError) (err : option error) : bool :=
  let ok1 := match err with Some (ErrTooManyReplicaGroups _) => true | _ => false end in
  let ok2 := match err with Some (ErrTooManyReplicaGroupsPtr _ _) => true | _ => false end in
  ok1 || ok2.

(** [func (e ReplicasNotMatchError) IsOperationAborted() bool]. *)
Definition IsOperationAborted (e : ReplicasNotMatchError) : bool := true.

(** Dispatch of the optional [Is(error) bool] method on a dynamic error
    value.  A method with a value receiver also belongs to the method set
    of the pointer type, where it runs on the pointee. *)
Definition error_Is_method (e : error) : option (option error -> bool) :=
  match e with
  | ErrReplicasNotMatch v | ErrReplicasNotMatchPtr _ v => Some (ReplicasNotMatchError_Is v)
  | ErrTooManyReplicaGroups v | ErrTooManyReplicaGroupsPtr _ v => Some (TooManyReplicaGroupsError_Is v)
  | _ => None
  end.

(** [errors.Is(err, target)] of the Go standard library, on the errors
    above: all of them are comparable and none has an [Unwrap] method, so
    the chain walk stops after [err] itself.  Interface equality compares
    dynamic type and value (for a pointer, the address). *)
Definition errors_Is (err target : option error) : bool :=
  match err, target with
  | None, None => true
  | None, Some _ | Some _, None => false
  | Some e, Some t =>
      bool_decide (e = t)
      || match error_Is_method e with
         | Some is_ => is_ target
         | None => false
         end
  end.

(** ** Configuration validation *)

Definition storeAllowedList : list string := ["consul"; "etcd"]%string.

(** The [for _, as := range storeAllowedList] loop of [Validate]. *)
Fixpoint storeAllowed (store : string) (allowed : list string) : bool :=
  match allowed with
  | [] => false
  | as_ :: rest => if String.eqb store as_ then true else storeAllowed store rest
  end.

(** [func (cfg *HATrackerConfig) Validate() error]. *)
Definition Validate (cfg : HATrackerConfig) : option error :=
  if UpdateTimeoutJitterMax cfg <? 0 then Some errNegativeUpdateTimeoutJitterMax
  else
    let minFailureTimeout :=
      dur_add (dur_add (UpdateTimeout cfg) (UpdateTimeoutJitterMax cfg)) Second in
    if FailoverTimeout cfg <? minFailureTimeout
    then Some (errInvalidFailoverTimeout (FailoverTimeout cfg) minFailureTimeout)
    else if storeAllowed (Store (KVStore cfg)) storeAllowedList then None
    else Some (errInvalidKVStore (Store (KVStore cfg))).

(** ** Strings *)

(** [strings.HasPrefix(s, sep)], returning the rest of [s] past [sep]. *)
Fixpoint stripPrefix (sep s : string) : option string :=
  match sep with
  | EmptyString => Some s
  | String a sep' =>
      match s with
      | EmptyString => None
      | String b s' => if Ascii.eqb a b then stripPrefix sep' s' else None
      end
  end.

(** [strings.Cut(s, sep)]: [s] around the first instance of [sep], as
    [(before, after, found)]; [s], the empty string and [false] when [sep]
    does not occur. *)
Fixpoint strings_Cut (s sep : string) : string * string * bool :=
  match stripPrefix sep s with
  | Some rest => (EmptyString, rest, true)
  | None =>
      match s with
      | EmptyString => (EmptyString, EmptyString, false)
      | String a s' =>
          let '(before, after, found) := strings_Cut s' sep in
          (String a before, after, found)
      end
  end.

(** [fmt.Sprintf("%s/%s", userID, replicaGroup)]. *)
Definition makeKey (userID replicaGroup : string) : string :=
  userID +:+ "/" +:+ replicaGroup.

(** ** The KV client *)

(** The dynamic value behind the [interface{}] that the client hands to a
    mutator or returns from [Get]: the nil interface (no value under the
    key), a pointer to a [ReplicaDesc] (what the codec decodes), or a value
    of some other type.  The codec never yields a nil pointer, and none is
    modelled; the guard [d == nil] of the cleanup mutator is therefore
    never taken here. *)
Inductive kvValue : Type :=
| KVNil
| KVDesc (d : ReplicaDesc)
| KVOther.

(** A CAS mutator [func(in interface{}) (out interface{}, retry bool, err
    error)].  The first argument is the reading of [time.Now()] at the
    moment the client runs the mutator. *)
Definition Mutator : Type := Time -> kvValue -> kvValue * bool * option error.

(** The calls the tracker makes on its client, in the order made. *)
Inductive KVCall : Type :=
| CallList (prefix : string)
| CallGet (key : string)
| CallDelete (key : string)
| CallCAS (key : string).

#[global] Instance KVCall_eq_dec : EqDecision KVCall.
Proof. solve_decision. Defined.

(** The interface [kv.Client] as the tracker calls it, over the state [W]
    of whatever lies behind it (the store, the network, the context, the
    clock).  Every operation may fail and may change [W] in any way;
    [kv_NewClient] is the constructor [kv.NewClient], [ctx_Err] the test
    [ctx.Err()] of the context the tracker runs under. *)
Class KVClient (W : Type) : Type := {
  kv_NewClient : kv_Config -> option error;
  kv_List : string -> W -> (list string * option error) * W;
  kv_Get : string -> W -> (kvValue * option error) * W;
  kv_Delete : string -> W -> option error * W;
  kv_CAS : string -> Mutator -> W -> option error * W;
  ctx_Err : W -> option error
}.

(** [HATrackerLimits]: [MaxHAReplicaGroups(user string) int]. *)
Definition HATrackerLimits : Type := string -> Z.

(** ** The tracker *)

Section Tracker.

Context {W : Type} `{!KVClient W}.

(** [type HATracker struct].  [world] is the state behind [client];
    [calls] records the client calls made so far.  Counters count
    increments; the timestamp gauge holds the integer that the code
    converts to [float64]; the propagation-time histogram and the logger
    are left out (no decision reads them). *)
Record HATracker : Type := mkHATracker {
  cfg : HATrackerConfig;
  updateTimeoutJitter : Duration;
  limits : option HATrackerLimits;
  elected : gmap string ReplicaDesc;
  replicaGroups : gmap string (gset string);
  electedReplicaChanges : gmap (string * string) nat;
  electedReplicaTimestamp : gmap (string * string) Z;
  kvCASCalls : gmap (string * string) nat;
  userReplicaGroupCount : gmap string nat;
  cleanupRuns : nat;
  replicasMarkedForDeletion : nat;
  deletedReplicas : nat;
  markingForDeletionsFailed : nat;
  world : W;
  calls : list KVCall
}.

Definition set_elected (v : gmap string ReplicaDesc) (c : HATracker) : HATracker :=
  mkHATracker (cfg c) (updateTimeoutJitter c) (limits c) v (replicaGroups c)
    (electedReplicaChanges c) (electedReplicaTimestamp c) (kvCASCalls c)
    (userReplicaGroupCount c) (cleanupRuns c) (replicasMarkedForDeletion c)
    (deletedReplicas c) (markingForDeletionsFailed c) (world c) (calls c).

Definition set_replicaGroups (v : gmap string (gset string)) (c : HATracker) : HATracker :=
  mkHATracker (cfg c) (updateTimeoutJitter c) (limits c) (elected c) v
    (electedReplicaChanges c) (electedReplicaTimestamp c) (kvCASCalls c)
    (userReplicaGroupCount c) (cleanupRuns c) (replicasMarkedForDeletion c)
    (deletedReplicas c) (markingForDeletionsFailed c) (world c) (calls c).

Definition set_electedReplicaChanges (v : gmap (string * string) nat) (c : HATracker) : HATracker :=
  mkHATracker (cfg c) (updateTimeoutJitter c) (limits c) (elected c) (replicaGroups c)
    v (electedReplicaTimestamp c) (kvCASCalls c)
    (userReplicaGroupCount c) (cleanupRuns c) (replicasMarkedForDeletion c)
    (deletedReplicas c) (markingForDeletionsFailed c) (world c) (calls c).

Definition set_electedReplicaTimestamp (v : gmap (string * string) Z) (c : HATracker) : HATracker :=
  mkHATracker (cfg c) (updateTimeoutJitter c) (limits c) (elected c) (replicaGroups c)
    (electedReplicaChanges c) v (kvCASCalls c)
    (userReplicaGroupCount c) (cleanupRuns c) (replicasMarkedForDeletion c)
    (deletedReplicas c) (markingForDeletionsFailed c) (world c) (calls c).

Definition set_kvCASCalls (v : gmap (string * string) nat) (c : HATracker) : HATracker :=
  mkHATracker (cfg c) (updateTimeoutJitter c) (limits c) (elected c) (replicaGroups c)
    (electedReplicaChanges c) (electedReplicaTimestamp c) v
    (userReplicaGroupCount c) (cleanupRuns c) (replicasMarkedForDeletion c)
    (deletedReplicas c) (markingForDeletionsFailed c) (world c) (calls c).

Definition set_userReplicaGroupCount (v : gmap string nat) (c : HATracker) : HATracker :=
  mkHATracker (cfg c) (updateTimeoutJitter c) (limits c) (elected c) (replicaGroups c)
    (electedReplicaChanges c) (electedReplicaTimestamp c) (kvCASCalls c)
    v (cleanupRuns c) (replicasMarkedForDeletion c)
    (deletedReplicas c) (markingForDeletionsFailed c) (world c) (calls c).

Definition set_cleanupRuns (v : nat) (c : HATracker) : HATracker :=
  mkHATracker (cfg c) (updateTimeoutJitter c) (limits c) (elected c) (replicaGroups c)
    (electedReplicaChanges c) (electedReplicaTimestamp c) (kvCASCalls c)
    (userReplicaGroupCount c) v (replicasMarkedForDeletion c)
    (deletedReplicas c) (markingForDeletionsFailed c) (world c) (calls c).

Definition set_replicasMarkedForDeletion (v : nat) (c : HATracker) : HATracker :=
  mkHATracker (cfg c) (updateTimeoutJitter c) (limits c) (elected c) (replicaGroups c)
    (electedReplicaChanges c) (electedReplicaTimestamp c) (kvCASCalls c)
    (userReplicaGroupCount c) (cleanupRuns c) v
    (deletedReplicas c) (markingForDeletionsFailed c) (world c) (calls c).

Definition set_deletedReplicas (v : nat) (c : HATracker) : HATracker :=
  mkHATracker (cfg c) (updateTimeoutJitter c) (limits c) (elected c) (replicaGroups c)
    (electedReplicaChanges c) (electedReplicaTimestamp c) (kvCASCalls c)
    (userReplicaGroupCount c) (cleanupRuns c) (replicasMarkedForDeletion c)
    v (markingForDeletionsFailed c) (world c) (calls c).

Definition set_markingForDeletionsFailed (v : nat) (c : HATracker) : HATracker :=
  mkHATracker (cfg c) (updateTimeoutJitter c) (limits c) (elected c) (replicaGroups c)
    (electedReplicaChanges c) (electedReplicaTimestamp c) (kvCASCalls c)
    (userReplicaGroupCount c) (cleanupRuns c) (replicasMarkedForDeletion c)
    (deletedReplicas c) v (world c) (calls c).

(** A client call: the call is recorded and the client runs on [world]. *)
Definition callClient {A : Type} (call : KVCall) (op : W -> A * W) (c : HATracker) : A * HATracker :=
  let '(a, w) := op (world c) in
  (a, mkHATracker (cfg c) (updateTimeoutJitter c) (limits c) (elected c) (replicaGroups c)
        (electedReplicaChanges c) (electedReplicaTimestamp c) (kvCASCalls c)
        (userReplicaGroupCount c) (cleanupRuns c) (replicasMarkedForDeletion c)
        (deletedReplicas c) (markingForDeletionsFailed c) w (calls c ++ [call])).

(** [vec.WithLabelValues(labels...).Inc()] on a counter vector. *)
Definition CounterVec_Inc {K : Type} `{Countable K} (labels : K) (vec : gmap K nat) : gmap K nat :=
  <[labels := S (default 0%nat (vec !! labels))]> vec.

(** [NewHATracker]: [r] is the raw draw behind
    [rand.Int63n(int64(2 * cfg.UpdateTimeoutJitterMax))], [w] the state
    behind the client the constructor obtains.  The product is a
    [time.Duration] product and wraps; the draw is made, and may panic,
    before [cfg.EnableHATracker] is looked at. *)
Definition NewHATracker (cfg : HATrackerConfig) (limits : option HATrackerLimits)
    (r : Z) (w : W) : outcome (option HATracker * option error) :=
  let construct (jitter : Duration) : option HATracker * option error :=
    let t := mkHATracker cfg jitter limits ∅ ∅ ∅ ∅ ∅ ∅ 0%nat 0%nat 0%nat 0%nat w [] in
    if EnableHATracker cfg then
      match kv_NewClient (KVStore cfg) with
      | Some err => (None, Some err)
      | None => (Some t, None)
      end
    else (Some t, None) in
  if 0 <? UpdateTimeoutJitterMax cfg then
    match rand_Int63n (wrap64 (2 * UpdateTimeoutJitterMax cfg)) r with
    | Returns draw => Returns (construct (dur_sub draw (UpdateTimeoutJitterMax cfg)))
    | Panics => Panics
    end
  else Returns (construct 0).

(** *** The watch callback of [loop] *)

(** The function passed to [c.client.WatchPrefix]; [replica] is the
    decoded value of the notification.  The result is the callback's
    "keep watching" flag. *)
Definition watchCallback (key : string) (replica : ReplicaDesc) (c : HATracker) : bool * HATracker :=
  let '(user, cluster, keyHasSeparator) := strings_Cut key "/" in
  if negb keyHasSeparator then (true, c)
  else if 0 <? DeletedAt replica then
    let c := set_elected (delete key (elected c)) c in
    let c := set_electedReplicaChanges (delete (user, cluster) (electedReplicaChanges c)) c in
    let c := set_electedReplicaTimestamp (delete (user, cluster) (electedReplicaTimestamp c)) c in
    let c :=
      match replicaGroups c !! user with
      | Some userClusters =>
          let userClusters := userClusters ∖ {[cluster]} in
          if (size userClusters =? 0)%nat
          then set_replicaGroups (delete user (replicaGroups c)) c
          else set_replicaGroups (<[user := userClusters]> (replicaGroups c)) c
      | None => c
      end in
    (true, c)
  else
    let exists_ := bool_decide (is_Some (elected c !! key)) in
    let electedDesc := default zeroReplicaDesc (elected c !! key) in
    let c :=
      if negb (String.eqb (Replica replica) (Replica electedDesc))
      then set_electedReplicaChanges (CounterVec_Inc (user, cluster) (electedReplicaChanges c)) c
      else c in
    let c :=
      if negb exists_
      then set_replicaGroups
             (<[user := default ∅ (replicaGroups c !! user) ∪ {[cluster]}]> (replicaGroups c)) c
      else c in
    let c := set_elected (<[key := replica]> (elected c)) c in
    let c := set_electedReplicaTimestamp
               (<[(user, cluster) := Z.quot (ReceivedAt replica) 1000]> (electedReplicaTimestamp c)) c in
    (true, c).

(** *** The admission check *)

(** The mutator that [checkKVStore] passes to [CAS]. *)
Definition checkKVStore_mutator (c : HATracker) (replica : string) (now : Time) : Mutator :=
  fun _ in_ =>
    let fresh := (KVDesc (mkReplicaDesc replica (timestamp_FromTime now) 0), true, None) in
    match in_ with
    | KVDesc desc =>
        if DeletedAt desc =? 0 then
          if String.eqb (Replica desc) replica
             && (Sub now (timestamp_Time (ReceivedAt desc))
                 <? dur_add (UpdateTimeout (cfg c)) (updateTimeoutJitter c))
          then (KVNil, false, None)
          else if negb (String.eqb (Replica desc) replica)
                  && (Sub now (timestamp_Time (ReceivedAt desc)) <? FailoverTimeout (cfg c))
          then (KVNil, false,
                Some (ErrReplicasNotMatch (mkReplicasNotMatchError replica (Replica desc))))
          else fresh
        else fresh
    | _ => fresh
    end.

(** [checkKVStore]. *)
Definition checkKVStore (key replica : string) (now : Time) (c : HATracker) : option error * HATracker :=
  callClient (CallCAS key) (kv_CAS key (checkKVStore_mutator c replica now)) c.

(** [CheckReplica]. *)
Definition CheckReplica (userID replicaGroup replica : string) (now : Time)
    (c : HATracker) : option error * HATracker :=
  if negb (EnableHATracker (cfg c)) then (None, c)
  else
    let key := makeKey userID replicaGroup in
    let entry := default zeroReplicaDesc (elected c !! key) in
    let ok := bool_decide (is_Some (elected c !! key)) in
    let replicaGroups_ := Z.of_nat (size (default (∅ : gset string) (replicaGroups c !! userID))) in
    if ok && (Sub now (timestamp_Time (ReceivedAt entry))
              <? dur_add (UpdateTimeout (cfg c)) (updateTimeoutJitter c))
    then
      if negb (String.eqb (Replica entry) replica)
      then (Some (ErrReplicasNotMatch (mkReplicasNotMatchError replica (Replica entry))), c)
      else (None, c)
    else
      let capped :=
        if negb ok then
          match limits c with
          | Some l =>
              let limit := l userID in
              if (0 <? limit) && (limit <? replicaGroups_ + 1)
              then Some (ErrTooManyReplicaGroups (mkTooManyReplicaGroupsError limit))
              else None
          | None => None
          end
        else None in
      match capped with
      | Some err => (Some err, c)
      | None =>
          let '(err, c) := checkKVStore key replica now c in
          let c := set_kvCASCalls (CounterVec_Inc (userID, replicaGroup) (kvCASCalls c)) c in
          (err, c)
      end.

(** *** The cleanup sweep *)

Definition cleanupCyclePeriod : Duration := 30 * Minute.
Definition deletionTimeout : Duration := 30 * Minute.

(** The mutator that [cleanupOldReplicas] passes to [CAS] for a key
    whose descriptor [desc] it has just read.  The staleness test reads
    [desc], the descriptor captured from the enclosing loop, as the
    source does; [d] is the descriptor stored at CAS time. *)
Definition cleanup_mutator (desc : ReplicaDesc) (deadline : Time) : Mutator :=
  fun wallNow in_ =>
    match in_ with
    | KVDesc d =>
        if (0 <? DeletedAt d)
           || negb (Before (timestamp_Time (ReceivedAt desc)) deadline)
        then (KVNil, false, None)
        else (KVDesc (mkReplicaDesc (Replica d) (ReceivedAt d) (timestamp_FromTime wallNow)),
              true, None)
    | _ => (KVNil, false, None)
    end.

(** One iteration of the [for _, key := range keys] loop, past the
    [ctx.Err()] test. *)
Definition cleanupKey (deadline : Time) (key : string) (c : HATracker) : HATracker :=
  let '((val, err), c) := callClient (CallGet key) (kv_Get key) c in
  match err with
  | Some _ => c
  | None =>
      match val with
      | KVDesc desc =>
          if 0 <? DeletedAt desc then
            if After (timestamp_Time (DeletedAt desc)) deadline then c
            else
              let '(err, c) := callClient (CallDelete key) (kv_Delete key) c in
              match err with
              | Some _ => set_markingForDeletionsFailed (S (markingForDeletionsFailed c)) c
              | None => set_deletedReplicas (S (deletedReplicas c)) c
              end
          else if (DeletedAt desc =? 0) && Before (timestamp_Time (ReceivedAt desc)) deadline then
            let '(err, c) :=
              callClient (CallCAS key) (kv_CAS key (cleanup_mutator desc deadline)) c in
            match err with
            | Some _ => set_markingForDeletionsFailed (S (markingForDeletionsFailed c)) c
            | None => set_replicasMarkedForDeletion (S (replicasMarkedForDeletion c)) c
            end
          else c
      | _ => c
      end
  end.

(** The loop over the listed keys; it returns as soon as the context is
    done. *)
Fixpoint cleanupKeys (deadline : Time) (keys : list string) (c : HATracker) : HATracker :=
  match keys with
  | [] => c
  | key :: rest =>
      match ctx_Err (world c) with
      | Some _ => c
      | None => cleanupKeys deadline rest (cleanupKey deadline key c)
      end
  end.

(** [cleanupOldReplicas(ctx, deadline)]. *)
Definition cleanupOldReplicas (deadline : Time) (c : HATracker) : HATracker :=
  let '((keys, err), c) := callClient (CallList EmptyString) (kv_List EmptyString) c in
  match err with
  | Some _ => c
  | None => cleanupKeys deadline keys c
  end.

(** One tick [t] of [cleanupOldReplicasLoop]. *)
Definition cleanupTick (t : Time) (c : HATracker) : HATracker :=
  let c := set_cleanupRuns (S (cleanupRuns c)) c in
  cleanupOldReplicas (Add t (dur_neg deletionTimeout)) c.

(** *** Read-only views and metric upkeep *)

(** [SnapshotElectedReplicas]. *)
Definition SnapshotElectedReplicas (c : HATracker) : gmap string ReplicaDesc * HATracker :=
  let electedCopy :=
    (fun desc => mkReplicaDesc (Replica desc) (ReceivedAt desc) (DeletedAt desc)) <$> elected c in
  (electedCopy, c).

(** [updateUserReplicaGroupCount]. *)
Definition updateUserReplicaGroupCount (c : HATracker) : HATracker :=
  set_userReplicaGroupCount
    ((size <$> replicaGroups c) ∪ userReplicaGroupCount c) c.

(** [CleanupHATrackerMetricsForUser]: [util.DeleteMatchingLabels] drops
    the series whose [user] label is [userID]. *)
Definition CleanupHATrackerMetricsForUser (userID : string) (c : HATracker) : HATracker :=
  let keep {V : Type} (m : gmap (string * string) V) : gmap (string * string) V :=
    filter (fun kv => kv.1.1 <> userID) m in
  let c := set_electedReplicaChanges (keep (electedReplicaChanges c)) c in
  let c := set_electedReplicaTimestamp (keep (electedReplicaTimestamp c)) c in
  let c := set_kvCASCalls (keep (kvCASCalls c)) c in
  set_userReplicaGroupCount (delete userID (userReplicaGroupCount c)) c.

End Tracker.

Arguments HATracker W : clear implicits.

(** ** A sequential in-memory client

    An implementation of the client interface to run the tracker on: a
    store in memory, accessed by one caller at a time, that never fails. *)

Module MemKV.

(** The state behind the in-memory client: the stored descriptors, the
    wall clock and whether the context has been cancelled. *)
Record MemWorld : Type := mkMemWorld {
  mem_store : gmap string ReplicaDesc;
  mem_clock : Time;
  mem_done : bool
}.

Definition mem_set_store (s : gmap string ReplicaDesc) (w : MemWorld) : MemWorld :=
  mkMemWorld s (mem_clock w) (mem_done w).

Definition mem_value (w : MemWorld) (key : string) : kvValue :=
  match mem_store w !! key with
  | Some d => KVDesc d
  | None => KVNil
  end.

(** [CAS] without contention: the mutator is applied once to the stored
    value; an error aborts, a nil [out] changes nothing, a descriptor is
    persisted. *)
Definition mem_CAS (key : string) (f : Mutator) (w : MemWorld) : option error * MemWorld :=
  let '(out, _, err) := f (mem_clock w) (mem_value w key) in
  match err with
  | Some e => (Some e, w)
  | None =>
      match out with
      | KVNil => (None, w)
      | KVDesc d => (None, mem_set_store (<[key := d]> (mem_store w)) w)
      | KVOther => (Some (errBackend "codec"), w)
      end
  end.

Definition mem_Get (key : string) (w : MemWorld) : (kvValue * option error) * MemWorld :=
  ((mem_value w key, None), w).

Definition mem_List (prefix : string) (w : MemWorld) : (list string * option error) * MemWorld :=
  ((filter (fun k => is_Some (stripPrefix prefix k)) (map fst (map_to_list (mem_store w))), None), w).

Definition mem_Delete (key : string) (w : MemWorld) : option error * MemWorld :=
  (None, mem_set_store (delete key (mem_store w)) w).

#[global] Instance mem_client : KVClient MemWorld := {
  kv_NewClient := fun _ => None;
  kv_List := mem_List;
  kv_Get := mem_Get;
  kv_Delete := mem_Delete;
  kv_CAS := mem_CAS;
  ctx_Err := fun w => if mem_done w then Some (errBackend "context canceled") else None
}.

(** The configuration of the end-to-end scenarios: update timeout 15s,
    no jitter, failover timeout 30s. *)
Definition scenarioCfg : HATrackerConfig :=
  mkHATrackerConfig true (15 * Second) 0 (30 * Second) (mk_kv_Config "consul").

Definition emptyWorld : MemWorld := mkMemWorld ∅ 0 false.

(** A tracker over the in-memory client with the given cache and store. *)
Definition trackerWith (cfg : HATrackerConfig) (limits : option HATrackerLimits)
    (elected : gmap string ReplicaDesc) (replicaGroups : gmap string (gset string))
    (w : MemWorld) : HATracker MemWorld :=
  mkHATracker cfg 0 limits elected replicaGroups ∅ ∅ ∅ ∅ 0%nat 0%nat 0%nat 0%nat w [].

End MemKV.

(** ** Derived notions used in the statements *)

(** A typed error held by value ([None]) or through a pointer. *)
Definition ReplicasNotMatch_as (p : option addr) (e : ReplicasNotMatchError) : error :=
  match p with
  | None => ErrReplicasNotMatch e
  | Some a => ErrReplicasNotMatchPtr a e
  end.

Definition TooManyReplicaGroups_as (p : option addr) (e : TooManyReplicaGroupsError) : error :=
  match p with
  | None => ErrTooManyReplicaGroups e
  | Some a => ErrTooManyReplicaGroupsPtr a e
  end.

(** The operations of a tracker, as its callers and its background tasks
    invoke them. *)
Inductive TrackerOp : Type :=
| OpCheckReplica (userID replicaGroup replica : string) (now : Time)
| OpWatch (key : string) (replica : ReplicaDesc)
| OpCleanupTick (t : Time)
| OpSnapshotElectedReplicas
| OpUpdateUserReplicaGroupCount
| OpCleanupHATrackerMetricsForUser (userID : string).

Section Derived.

Context {W : Type} `{!KVClient W}.

Definition runOp (op : TrackerOp) (c : HATracker W) : HATracker W :=
  match op with
  | OpCheckReplica userID replicaGroup replica now =>
      (CheckReplica userID replicaGroup replica now c).2
  | OpWatch key replica => (watchCallback key replica c).2
  | OpCleanupTick t => cleanupTick t c
  | OpSnapshotElectedReplicas => (SnapshotElectedReplicas c).2
  | OpUpdateUserReplicaGroupCount => updateUserReplicaGroupCount c
  | OpCleanupHATrackerMetricsForUser userID => CleanupHATrackerMetricsForUser userID c
  end.

(** [WatchPrefix] delivering a sequence of notifications to the
    callback, until the callback asks to stop. *)
Fixpoint watchEvents (events : list (string * ReplicaDesc)) (c : HATracker W) : HATracker W :=
  match events with
  | [] => c
  | (key, value) :: rest =>
      let '(continue, c) := watchCallback key value c in
      if continue then watchEvents rest c else c
  end.

(** [c.replicaGroups[user]], read as a set (a missing user reads as the
    nil map, which has no members). *)
Definition groupsOf (c : HATracker W) (user : string) : gset string :=
  default ∅ (replicaGroups c !! user).

(** The cache maps of a tracker are empty. *)
Definition emptyCache (c : HATracker W) : Prop :=
  elected c = ∅ /\ replicaGroups c = ∅.

(** Two tracker states agree on what the watch callback owns: the two
    cache maps and the counter of elected-replica changes. *)
Definition sameCache (c c' : HATracker W) : Prop :=
  elected c' = elected c
  /\ replicaGroups c' = replicaGroups c
  /\ electedReplicaChanges c' = electedReplicaChanges c.

(** The sweep may delete [key] blindly: the client has returned for it
    a tombstone whose [DeletedAt] is not after the deadline. *)
Definition deletable (deadline : Time) (key : string) : Prop :=
  exists (w : W) desc w',
    kv_Get key w = ((KVDesc desc, None), w')
    /\ 0 < DeletedAt desc
    /\ timestamp_Time (DeletedAt desc) <= deadline.

(** No descriptor held in [elected] is a tombstone. *)
Definition electedLive (c : HATracker W) : Prop :=
  forall key desc, elected c !! key = Some desc -> ~ 0 < DeletedAt desc.

(** No tenant of [replicaGroups] has an empty set of groups. *)
Definition noEmptyTenant (c : HATracker W) : Prop :=
  forall user, replicaGroups c !! user <> Some ∅.

(** The slow path of [CheckReplica]: the CAS, then the CAS-call counter. *)
Definition slowPath (userID replicaGroup replica : string) (now : Time)
    (c : HATracker W) : option error * HATracker W :=
  let '(err, c) := checkKVStore (makeKey userID replicaGroup) replica now c in
  (err, set_kvCASCalls (CounterVec_Inc (userID, replicaGroup) (kvCASCalls c)) c).

End Derived.

(** Whether [s] contains the separator of keys. *)
Definition hasSeparator (s : string) : bool := (strings_Cut s "/").2.

(** [replicaGroups] mirrors [elected]: the groups of a tenant are the
    [g] for which the key of tenant and [g] is in [elected]. *)
Definition groupsMirrorElected {W : Type} `{!KVClient W} (c : HATracker W) : Prop :=
  forall user g,
    g ∈ groupsOf c user <->
    hasSeparator user = false /\ is_Some (elected c !! makeKey user g).

(** The value of a counter of a vector; a series that does not exist
    counts as zero. *)
Definition counterValue {K : Type} `{Countable K} (vec : gmap K nat) (labels : K) : nat :=
  default 0%nat (vec !! labels).

(** The descriptor read by [c.elected[key]]: the zero value when the key
    is missing. *)
Definition cachedDesc (m : gmap string ReplicaDesc) (key : string) : ReplicaDesc :=
  default zeroReplicaDesc (m !! key).

(** The descriptor the slow path writes. *)
Definition freshDesc (replica : string) (now : Time) : ReplicaDesc :=
  mkReplicaDesc replica (timestamp_FromTime now) 0.

(** ** Concrete trackers for the runs *)

Module Runs.

Import MemKV.

(** The tracker of the scenarios once [(u1, c1)] has elected [R1] at
    time 0. *)
Definition electedR1 (limits : option HATrackerLimits) : HATracker MemWorld :=
  trackerWith scenarioCfg limits
    {[ "u1/c1"%string := mkReplicaDesc "R1" 0 0 ]}
    {[ "u1"%string := {[ "c1"%string ]} ]}
    (mkMemWorld {[ "u1/c1"%string := mkReplicaDesc "R1" 0 0 ]} 0 false).

(** The watch notification for [key]: the store's current value is
    delivered to the callback. *)
Definition deliver (key : string) (c : HATracker MemWorld) : HATracker MemWorld :=
  match mem_store (world c) !! key with
  | Some d => (watchCallback key d c).2
  | None => c
  end.

(** The wall clock moves to [t]. *)
Definition atClock (t : Time) (c : HATracker MemWorld) : HATracker MemWorld :=
  mkHATracker (cfg c) (updateTimeoutJitter c) (limits c) (elected c) (replicaGroups c)
    (electedReplicaChanges c) (electedReplicaTimestamp c) (kvCASCalls c)
    (userReplicaGroupCount c) (cleanupRuns c) (replicasMarkedForDeletion c)
    (deletedReplicas c) (markingForDeletionsFailed c)
    (mkMemWorld (mem_store (world c)) t (mem_done (world c))) (calls c).

(** The end-to-end scenarios, one after the other, on a tracker whose
    tenant [u1] is capped at one replica group. *)
Definition run0 : HATracker MemWorld :=
  trackerWith scenarioCfg (Some (fun _ => 1)) ∅ ∅ emptyWorld.
Definition run1 := CheckReplica "u1" "c1" "R1" 0 run0.
Definition run2 := CheckReplica "u1" "c1" "R1" (5 * Second) (deliver "u1/c1" run1.2).
Definition run3 := CheckReplica "u1" "c1" "R2" (10 * Second) run2.2.
Definition run4 := CheckReplica "u1" "c1" "R1" (20 * Second) run3.2.
Definition run5 := CheckReplica "u1" "c1" "R2" (55 * Second) (deliver "u1/c1" run4.2).
Definition run6 := CheckReplica "u1" "c2" "R1" (56 * Second) (deliver "u1/c1" run5.2).
Definition sweep1 : HATracker MemWorld :=
  let t := 55 * Second + 31 * Minute in
  deliver "u1/c1" (cleanupTick t (atClock t run6.2)).
Definition sweep2 : HATracker MemWorld :=
  let t := 55 * Second + 62 * Minute in
  cleanupTick t (atClock t sweep1).

End Runs.

(** ** Further notions used in the statements *)

(** The fields of a tracker that the watch callback never touches. *)
Definition sameOutsideWatch {W : Type} `{!KVClient W} (c c' : HATracker W) : Prop :=
  cfg c' = cfg c
  /\ updateTimeoutJitter c' = updateTimeoutJitter c
  /\ limits c' = limits c
  /\ kvCASCalls c' = kvCASCalls c
  /\ userReplicaGroupCount c' = userReplicaGroupCount c
  /\ cleanupRuns c' = cleanupRuns c
  /\ replicasMarkedForDeletion c' = replicasMarkedForDeletion c
  /\ deletedReplicas c' = deletedReplicas c
  /\ markingForDeletionsFailed c' = markingForDeletionsFailed c
  /\ world c' = world c
  /\ calls c' = calls c.

(** The value the timestamp gauge holds for a cached descriptor. *)
Definition gaugeOf (desc : ReplicaDesc) : Z := Z.quot (ReceivedAt desc) 1000.

(** The outcomes the cleanup sweep has counted: keys deleted, keys marked
    for deletion, and failures of either. *)
Definition cleanupOutcomes {W : Type} `{!KVClient W} (c : HATracker W) : nat :=
  (deletedReplicas c + replicasMarkedForDeletion c + markingForDeletionsFailed c)%nat.

(** The calls of a log that write to the store ([Delete] and [CAS]). *)
Fixpoint writeCalls (log : list KVCall) : nat :=
  match log with
  | [] => 0%nat
  | (CallDelete _ | CallCAS _) :: rest => S (writeCalls rest)
  | _ :: rest => writeCalls rest
  end.

(** The key a client call is about; [List] is about none. *)
Definition callKey (call : KVCall) : option string :=
  match call with
  | CallList _ => None
  | CallGet key | CallDelete key | CallCAS key => Some key
  end.

(** A millisecond stamp that fits in [int64]. *)
Definition int64_ms (t : Time) : Prop :=
  minDuration <= t / Millisecond <= maxDuration.

(** [replicaGroups] once the group [cluster] of [user] is dropped, the
    tenant going with its last group. *)
Definition dropGroup (groups : gmap string (gset string)) (user cluster : string)
    : gmap string (gset string) :=
  match groups !! user with
  | Some userClusters =>
      if (size (userClusters ∖ {[cluster]}) =? 0)%nat
      then delete user groups
      else <[user := userClusters ∖ {[cluster]}]> groups
  | None => groups
  end.

(** Every key of [elected] has the separator. *)
Definition electedKeysSeparated {W : Type} `{!KVClient W} (c : HATracker W) : Prop :=
  forall key, is_Some (elected c !! key) -> hasSeparator key = true.

(** The timestamp gauge has a series exactly for the cached keys, holding
    the seconds of the cached [ReceivedAt]. *)
Definition gaugeMirrorsElected {W : Type} `{!KVClient W} (c : HATracker W) : Prop :=
  forall user g,
    electedReplicaTimestamp c !! (user, g)
    = if hasSeparator user then None else gaugeOf <$> elected c !! makeKey user g.

(** ** The mock rule store of the ruler tests

    [mockRuleStore] keeps, per tenant, a slice of pointers to rule group
    descriptors.  The store's map is the only holder of each slice's
    backing array, and the store never writes through the pointers, so a
    slice is modelled by the list of the descriptors it points to; where a
    function writes into the backing array while it still reads it
    ([DeleteNamespace]), the array is threaded through the loop.  The
    mutex is left out (one caller at a time), and [LoadRuleGroups] is not
    modelled: what it returns depends on Go's order of map iteration. *)

Module RuleStoreMock.

(** [rulespb.RuleDesc] and [rulespb.RuleGroupDesc], with the fields the
    mock's functions and fixtures use (their declarations are generated
    code of another package). *)
Record RuleDesc : Type := mkRuleDesc {
  Record_ : string;
  Alert : string;
  Expr : string
}.

Record RuleGroupDesc : Type := mkRuleGroupDesc {
  Name : string;
  Namespace : string;
  User : string;
  Interval : Duration;
  Rules : list RuleDesc;
  Limit : Z;
  QueryOffset : option Duration
}.

(** The errors the mock returns: the three sentinels of [rulestore] and
    the two it formats itself. *)
Inductive storeError : Type :=
| ErrUserNotFound
| ErrGroupNamespaceNotFound
| ErrGroupNotFound
| errUnableToDeleteRg
| errFailedToGetRuleGroup (user : string).

Record mockRuleStore : Type := mkMockRuleStore {
  rules : gmap string (list RuleGroupDesc);
  errorMap : gmap string storeError
}.

Definition newMockRuleStore (rules : gmap string (list RuleGroupDesc))
    (errorMap : gmap string storeError) : mockRuleStore :=
  mkMockRuleStore rules errorMap.

Definition set_rules (r : gmap string (list RuleGroupDesc)) (m : mockRuleStore) : mockRuleStore :=
  mkMockRuleStore r (errorMap m).


(** The descriptor that the listing functions build for a group [r] of
    tenant [k]: namespace, name and interval of [r], the tenant [k], and
    zero values elsewhere. *)
Definition listedDesc (k : string) (r : RuleGroupDesc) : RuleGroupDesc :=
  mkRuleGroupDesc (Name r) (Namespace r) k (Interval r) [] 0 None.

(** [ListAllRuleGroups]: [result[k]] is appended to once per group of
    [k], so a tenant without groups gets no entry. *)
Definition ListAllRuleGroups (m : mockRuleStore)
    : gmap string (list RuleGroupDesc) * option storeError :=
  (map_imap (fun k v =>
               match v with
               | [] => None
               | _ => Some (map (listedDesc k) v)
               end) (rules m),
   None).

(** The loop of [ListRuleGroupsForUserAndNamespace]. *)
Fixpoint listForNamespace (userID namespace : string) (groups : list RuleGroupDesc)
    : list RuleGroupDesc :=
  match groups with
  | [] => []
  | r :: rest =>
      if negb (String.eqb namespace EmptyString) && negb (String.eqb namespace (Namespace r))
      then listForNamespace userID namespace rest
      else listedDesc userID r :: listForNamespace userID namespace rest
  end.

(** [ListRuleGroupsForUserAndNamespace]; a missing tenant reads as the
    nil slice. *)
Definition ListRuleGroupsForUserAndNamespace (m : mockRuleStore) (userID namespace : string)
    : list RuleGroupDesc * option storeError :=
  (listForNamespace userID namespace (default [] (rules m !! userID)), None).

(** The test [rg.Namespace == namespace && rg.Name == group]. *)
Definition isGroup (namespace group : string) (rg : RuleGroupDesc) : bool :=
  String.eqb (Namespace rg) namespace && String.eqb (Name rg) group.

(** The index at which a [for i, rg := range userRules] loop first finds
    a group passing [test]. *)
Fixpoint findIndex (test : RuleGroupDesc -> bool) (userRules : list RuleGroupDesc)
    : option nat :=
  match userRules with
  | [] => None
  | rg :: rest =>
      if test rg then Some 0%nat
      else match findIndex test rest with
           | Some i => Some (S i)
           | None => None
           end
  end.

(** The group a [range] loop first finds passing [test]. *)
Definition firstGroup (test : RuleGroupDesc -> bool) (userRules : list RuleGroupDesc)
    : option RuleGroupDesc :=
  match findIndex test userRules with
  | Some i => userRules !! i
  | None => None
  end.

(** [GetRuleGroup]. *)
Definition GetRuleGroup (m : mockRuleStore) (userID namespace group : string)
    : option RuleGroupDesc * option storeError :=
  match rules m !! userID with
  | None => (None, Some ErrUserNotFound)
  | Some userRules =>
      if String.eqb namespace EmptyString then (None, Some ErrGroupNamespaceNotFound)
      else
        match findIndex (isGroup namespace group) userRules with
        | Some i =>
            match userRules !! i with
            | Some rg => (Some rg, None)
            | None => (None, Some ErrGroupNotFound)
            end
        | None => (None, Some ErrGroupNotFound)
        end
  end.

(** The opening of the three writers: an unknown tenant is entered with
    an empty slice before anything else is checked. *)
Definition userRulesOf (m : mockRuleStore) (userID : string)
    : list RuleGroupDesc * mockRuleStore :=
  match rules m !! userID with
  | Some userRules => (userRules, m)
  | None => ([], set_rules (<[userID := []]> (rules m)) m)
  end.

(** [SetRuleGroup]. *)
Definition SetRuleGroup (m : mockRuleStore) (userID namespace : string) (group : RuleGroupDesc)
    : option storeError * mockRuleStore :=
  let '(userRules, m) := userRulesOf m userID in
  if String.eqb namespace EmptyString then (Some ErrGroupNamespaceNotFound, m)
  else
    match findIndex (isGroup namespace (Name group)) userRules with
    | Some i => (None, set_rules (<[userID := <[i := group]> userRules]> (rules m)) m)
    | None => (None, set_rules (<[userID := userRules ++ [group]]> (rules m)) m)
    end.

(** [DeleteRuleGroup]: at the first match [i] the tenant's slice becomes
    [append(userRules[:i], userRules[:i+1]...)], as the source has it. *)
Definition DeleteRuleGroup (m : mockRuleStore) (userID namespace group : string)
    : option storeError * mockRuleStore :=
  let '(userRules, m) := userRulesOf m userID in
  if String.eqb namespace EmptyString then (Some ErrGroupNamespaceNotFound, m)
  else
    match findIndex (isGroup namespace group) userRules with
    | Some i =>
        (None, set_rules (<[userID := take i userRules ++ take (S i) userRules]> (rules m)) m)
    | None => (None, m)
    end.

(** [append(userRules[:i], userRules[i+1:]...)] on the backing array: the
    elements past [i] move one place down, the last place keeps its
    element. *)
Definition shiftDown (i : nat) (array : list RuleGroupDesc) : list RuleGroupDesc :=
  take i array ++ drop (S i) array ++ drop (length array - 1) array.

(** The loop of [DeleteNamespace] from index [i], with [remaining]
    iterations to go, over the backing array; [deleted] tells whether the
    tenant's slice has been reassigned.  The loop reads element [i] from
    the array as it then is. *)
Fixpoint deleteNamespaceLoop (namespace : string) (remaining i : nat)
    (array : list RuleGroupDesc) (deleted : bool)
    : option storeError * list RuleGroupDesc * bool :=
  match remaining with
  | O => (None, array, deleted)
  | S remaining' =>
      match array !! i with
      | None => (None, array, deleted)
      | Some rg =>
          if String.eqb (Namespace rg) namespace then
            if String.eqb (Name rg) "fail" then (Some errUnableToDeleteRg, array, deleted)
            else deleteNamespaceLoop namespace remaining' (S i) (shiftDown i array) true
          else deleteNamespaceLoop namespace remaining' (S i) array deleted
      end
  end.

(** [DeleteNamespace].  Once reassigned, the tenant's slice is the array
    without its last place. *)
Definition DeleteNamespace (m : mockRuleStore) (userID namespace : string)
    : option storeError * mockRuleStore :=
  let '(userRules, m) := userRulesOf m userID in
  if String.eqb namespace EmptyString then (Some ErrGroupNamespaceNotFound, m)
  else
    let '(err, array, deleted) :=
      deleteNamespaceLoop namespace (length userRules) 0 userRules false in
    (err,
     if deleted
     then set_rules (<[userID := take (length userRules - 1) array]> (rules m)) m
     else m).

End RuleStoreMock.

(** ** Fixtures *)

Module Fixtures.

Import MemKV RuleStoreMock.

(** The scenario configuration with HA tracking switched off. *)
Definition disabledCfg : HATrackerConfig :=
  mkHATrackerConfig false (15 * Second) 0 (30 * Second) (mk_kv_Config "consul").

(** The scenario configuration with a jitter of up to 5s. *)
Definition jitterCfg : HATrackerConfig :=
  mkHATrackerConfig true (15 * Second) (5 * Second) (30 * Second) (mk_kv_Config "consul").

(** The fixtures of the mock's source file: [interval], the groups of
    [mockRulesNamespaces] and [mockRules], and the two maps. *)
Definition interval : Duration := 10 * Second.

Definition user1_group1 : RuleGroupDesc :=
  mkRuleGroupDesc "group1" "namespace1" "user1" interval
    [mkRuleDesc "UP_RULE" EmptyString "up"; mkRuleDesc EmptyString "UP_ALERT" "up < 1"] 0 None.

Definition user1_fail : RuleGroupDesc :=
  mkRuleGroupDesc "fail" "namespace2" "user1" interval
    [mkRuleDesc "UP2_RULE" EmptyString "up"; mkRuleDesc EmptyString "UP2_ALERT" "up < 1"] 0 None.

Definition user2_group1 : RuleGroupDesc :=
  mkRuleGroupDesc "group1" "namespace1" "user2" interval
    [mkRuleDesc "UP_RULE" EmptyString "up"] 0 None.

Definition mockRulesNamespaces : gmap string (list RuleGroupDesc) :=
  {[ "user1"%string := [user1_group1; user1_fail] ]}.

Definition mockRules : gmap string (list RuleGroupDesc) :=
  <["user1"%string := [user1_group1]]> {[ "user2"%string := [user2_group1] ]}.

(** A group for [namespace1] that [mockRules] does not have. *)
Definition user1_group2 : RuleGroupDesc :=
  mkRuleGroupDesc "group2" "namespace1" "user1" interval
    [mkRuleDesc "UP_RULE" EmptyString "up"] 0 None.

End Fixtures.

(** * Properties *)

(** ** Arithmetic of durations *)

Lemma wrap64_in_range (z : Z) :
  minDuration <= z <= maxDuration -> wrap64 z = z.
Proof.
  unfold wrap64, minDuration, maxDuration. intros Hz.
  rewrite Z.mod_small; lia.
Qed.

Lemma wrap64_idemp_add (a b : Z) : wrap64 (wrap64 a + b) = wrap64 (a + b).
Proof.
  unfold wrap64.
  replace (((a + 2 ^ 63) mod 2 ^ 64 - 2 ^ 63) + b + 2 ^ 63)
    with ((a + 2 ^ 63) mod 2 ^ 64 + b) by lia.
  replace (a + b + 2 ^ 63) with ((a + 2 ^ 63) + b) by lia.
  by rewrite Zplus_mod_idemp_l.
Qed.

Lemma dur_add3_in_range (a b c : Duration) :
  minDuration <= a + b + c <= maxDuration ->
  dur_add (dur_add a b) c = a + b + c.
Proof.
  intros Hr. unfold dur_add. rewrite wrap64_idemp_add. by apply wrap64_in_range.
Qed.

(** [timestamp.Time] places a millisecond stamp at that many
    milliseconds after the epoch. *)
Lemma timestamp_Time_ms (t : Z) : timestamp_Time t = t * Millisecond.
Proof.
  unfold timestamp_Time, Unix, Second, Millisecond.
  pose proof (Z.quot_rem' t 1000). lia.
Qed.

(** ** Errors *)

(** C10.  [errors.Is] matches any two [ReplicasNotMatchError]s whatever
    their [replica] and [elected] fields, by value or through pointers, and
    any two [TooManyReplicaGroupsError]s whatever their [limit]; a
    [ReplicasNotMatchError] never matches a [TooManyReplicaGroupsError]
    target, nor the other way round. *)
Theorem errors_Is_typed_errors :
  (forall p1 e1 p2 e2,
      errors_Is (Some (ReplicasNotMatch_as p1 e1)) (Some (ReplicasNotMatch_as p2 e2)) = true)
  /\ (forall p1 e1 p2 e2,
      errors_Is (Some (TooManyReplicaGroups_as p1 e1)) (Some (TooManyReplicaGroups_as p2 e2)) = true)
  /\ (forall p1 e1 p2 e2,
      errors_Is (Some (ReplicasNotMatch_as p1 e1)) (Some (TooManyReplicaGroups_as p2 e2)) = false)
  /\ (forall p1 e1 p2 e2,
      errors_Is (Some (TooManyReplicaGroups_as p1 e1)) (Some (ReplicasNotMatch_as p2 e2)) = false).
Proof.
  repeat split; intros [a1|] e1 [a2|] e2; cbn;
    solve [ apply orb_true_r
          | apply orb_false_intro; [apply bool_decide_eq_false; discriminate | reflexivity] ].
Qed.

(** ** Configuration validation *)

Lemma storeAllowed_consul_etcd (store : string) :
  storeAllowed store storeAllowedList = true <-> store = "consul"%string \/ store = "etcd"%string.
Proof.
  unfold storeAllowedList; simpl.
  destruct (String.eqb_spec store "consul"); [tauto|].
  destruct (String.eqb_spec store "etcd"); [tauto|].
  split; [discriminate | tauto].
Qed.

(** The bound that [NewHATracker] hands to [rand.Int63n]: for a jitter
    maximum below [2 ^ 62] nanoseconds the product does not wrap; from
    there on, for every [int64] value, it wraps to a negative number. *)
Lemma wrap64_double_small (j : Z) : 0 < j < 2 ^ 62 -> wrap64 (2 * j) = 2 * j.
Proof.
  intros Hj. apply wrap64_in_range. unfold minDuration, maxDuration. lia.
Qed.

Lemma wrap64_double_large (j : Z) : 2 ^ 62 <= j <= maxDuration -> wrap64 (2 * j) <= 0.
Proof.
  unfold maxDuration, wrap64. intros Hj.
  replace (2 * j + 2 ^ 63) with (2 * j - 2 ^ 63 + 1 * 2 ^ 64) by lia.
  rewrite Z_mod_plus_full, Z.mod_small by lia. lia.
Qed.

(** [NewHATracker] away from the panic: the jitter it draws is within
    the configured maximum, and the tracker is built unless the client
    cannot be had. *)
Lemma NewHATracker_returns {W : Type} `{!KVClient W} conf limits r (w : W) :
  UpdateTimeoutJitterMax conf < 2 ^ 62 ->
  exists jitter,
    (0 <= UpdateTimeoutJitterMax conf ->
     - UpdateTimeoutJitterMax conf <= jitter <= UpdateTimeoutJitterMax conf)
    /\ NewHATracker conf limits r w
       = Returns
           (if EnableHATracker conf
            then match kv_NewClient (KVStore conf) with
                 | Some err => (None, Some err)
                 | None =>
                     (Some (mkHATracker conf jitter limits ∅ ∅ ∅ ∅ ∅ ∅
                              0%nat 0%nat 0%nat 0%nat w []), None)
                 end
            else (Some (mkHATracker conf jitter limits ∅ ∅ ∅ ∅ ∅ ∅
                          0%nat 0%nat 0%nat 0%nat w []), None)).
Proof.
  intros Hsmall. unfold NewHATracker, rand_Int63n.
  destruct (Z.ltb_spec 0 (UpdateTimeoutJitterMax conf)) as [Hpos|Hnonpos].
  - rewrite wrap64_double_small by lia.
    destruct (Z.leb_spec (2 * UpdateTimeoutJitterMax conf) 0) as [|_]; [lia|].
    exists (dur_sub (r mod (2 * UpdateTimeoutJitterMax conf)) (UpdateTimeoutJitterMax conf)).
    split; [|reflexivity]. intros _.
    pose proof (Z.mod_pos_bound r (2 * UpdateTimeoutJitterMax conf) ltac:(lia)) as Hdraw.
    unfold dur_sub. rewrite wrap64_in_range by (unfold minDuration, maxDuration; lia). lia.
  - exists 0. split; [lia | reflexivity].
Qed.

Lemma NewHATracker_panics {W : Type} `{!KVClient W} conf limits r (w : W) :
  2 ^ 62 <= UpdateTimeoutJitterMax conf <= maxDuration ->
  NewHATracker conf limits r w = Panics.
Proof.
  intros Hlarge. pose proof (wrap64_double_large _ Hlarge) as Hwrap.
  unfold NewHATracker, rand_Int63n.
  destruct (Z.ltb_spec 0 (UpdateTimeoutJitterMax conf)) as [_|]; [|lia].
  by destruct (Z.leb_spec (wrap64 (2 * UpdateTimeoutJitterMax conf)) 0) as [_|]; [|lia].
Qed.

(** C7, amended.  [Validate] returns an error exactly when the jitter
    maximum is negative, or the failover timeout is below update timeout
    + jitter maximum + 1s, or the store is neither consul nor etcd, where
    the sum is the one the code computes, Go's wrapping [time.Duration]
    sum; whenever the sum fits in [int64] the comparison is with the
    mathematical sum.  [Validate] only reports: [NewHATracker] does not
    run it, and builds a tracker from any configuration, accepted or not,
    whose jitter maximum is below [2 ^ 62] when HA tracking is off or the
    client can be had. *)
Theorem Validate_error_iff :
  (forall cfg,
      Validate cfg <> None <->
      UpdateTimeoutJitterMax cfg < 0
      \/ FailoverTimeout cfg
         < dur_add (dur_add (UpdateTimeout cfg) (UpdateTimeoutJitterMax cfg)) Second
      \/ (Store (KVStore cfg) <> "consul"%string /\ Store (KVStore cfg) <> "etcd"%string))
  /\ (forall cfg,
      minDuration <= UpdateTimeout cfg + UpdateTimeoutJitterMax cfg + Second <= maxDuration ->
      (Validate cfg <> None <->
       UpdateTimeoutJitterMax cfg < 0
       \/ FailoverTimeout cfg < UpdateTimeout cfg + UpdateTimeoutJitterMax cfg + Second
       \/ (Store (KVStore cfg) <> "consul"%string /\ Store (KVStore cfg) <> "etcd"%string)))
  /\ (forall (W : Type) (K : KVClient W) conf limits r (w : W),
      UpdateTimeoutJitterMax conf < 2 ^ 62 ->
      EnableHATracker conf = false \/ kv_NewClient (KVStore conf) = None ->
      exists t, NewHATracker conf limits r w = Returns (Some t, None) /\ cfg t = conf).
Proof.
  assert (Hiff : forall cfg,
      Validate cfg <> None <->
      UpdateTimeoutJitterMax cfg < 0
      \/ FailoverTimeout cfg
         < dur_add (dur_add (UpdateTimeout cfg) (UpdateTimeoutJitterMax cfg)) Second
      \/ (Store (KVStore cfg) <> "consul"%string /\ Store (KVStore cfg) <> "etcd"%string)).
  { intros cfg. unfold Validate.
    destruct (Z.ltb_spec (UpdateTimeoutJitterMax cfg) 0) as [Hj|Hj].
    { split; [tauto | discriminate]. }
    destruct (Z.ltb_spec (FailoverTimeout cfg)
                (dur_add (dur_add (UpdateTimeout cfg) (UpdateTimeoutJitterMax cfg)) Second))
      as [Hf|Hf].
    { split; [tauto | discriminate]. }
    pose proof (storeAllowed_consul_etcd (Store (KVStore cfg))) as Hs.
    destruct (storeAllowed (Store (KVStore cfg)) storeAllowedList).
    - split; [congruence|]. intros [?|[?|[? ?]]]; [lia | lia |].
      destruct Hs as [Hs _]. destruct (Hs eq_refl); contradiction.
    - split; [|discriminate]. intros _. right; right.
      split; intros Heq; destruct Hs as [_ Hs]; discriminate Hs; tauto. }
  split; [exact Hiff|]. split.
  - intros cfg Hr. rewrite Hiff. by rewrite (dur_add3_in_range _ _ _ Hr).
  - intros W K conf limits r w Hsmall Hclient.
    destruct (NewHATracker_returns conf limits r w Hsmall) as (jitter & _ & ->).
    destruct Hclient as [-> | ->]; [|destruct (EnableHATracker conf)];
      (eexists; split; [reflexivity|reflexivity]).
Qed.

(** ** The admission check *)

Section AdmissionProperties.

Context {W : Type} `{!KVClient W}.

Implicit Types c : HATracker W.

Lemma callClient_cache {A : Type} (call : KVCall) (op : W -> A * W) c :
  sameCache c (callClient call op c).2.
Proof. unfold callClient, sameCache. by destruct (op (world c)). Qed.

Lemma callClient_calls {A : Type} (call : KVCall) (op : W -> A * W) c :
  calls (callClient call op c).2 = calls c ++ [call].
Proof. unfold callClient. by destruct (op (world c)). Qed.

Lemma CheckReplica_slow_or_same userID replicaGroup replica now c :
  (CheckReplica userID replicaGroup replica now c).2 = c
  \/ CheckReplica userID replicaGroup replica now c
     = slowPath userID replicaGroup replica now c.
Proof.
  unfold CheckReplica, slowPath.
  destruct (negb (EnableHATracker (cfg c))); [by left|].
  destruct (_ && _).
  { destruct (negb _); by left. }
  destruct (negb (bool_decide _)); [|by right].
  destruct (limits c) as [l|]; [|by right].
  destruct (_ && _); [by left | by right].
Qed.

(** C1.  With HA tracking enabled, a cache entry for the key that is
    younger than the update timeout plus jitter settles the call from
    the cache: nil when the entry's replica is the caller's,
    [ReplicasNotMatchError] with the rejected and the elected replica
    otherwise.  The tracker is left as it was: no client call is made
    and the CAS counter does not move. *)
Theorem CheckReplica_fast_path userID replicaGroup replica now c entry :
  EnableHATracker (cfg c) = true ->
  elected c !! makeKey userID replicaGroup = Some entry ->
  Sub now (timestamp_Time (ReceivedAt entry))
    < dur_add (UpdateTimeout (cfg c)) (updateTimeoutJitter c) ->
  (Replica entry = replica ->
     (CheckReplica userID replicaGroup replica now c).1 = None)
  /\ (Replica entry <> replica ->
     (CheckReplica userID replicaGroup replica now c).1
     = Some (ErrReplicasNotMatch (mkReplicasNotMatchError replica (Replica entry))))
  /\ (CheckReplica userID replicaGroup replica now c).2 = c
  /\ calls (CheckReplica userID replicaGroup replica now c).2 = calls c
  /\ kvCASCalls (CheckReplica userID replicaGroup replica now c).2 = kvCASCalls c.
Proof.
  intros Hen Hentry Hfresh. unfold CheckReplica.
  rewrite Hen, Hentry. cbn.
  apply Z.ltb_lt in Hfresh. rewrite Hfresh.
  destruct (String.eqb_spec (Replica entry) replica); simpl; repeat split; congruence.
Qed.

(** C4.  With HA tracking enabled and no cache entry for the key: when
    the limits give a cap [N > 0] and the cached number of groups of the
    tenant plus one exceeds [N], the call returns
    [TooManyReplicaGroupsError] with limit [N] and makes no client call;
    when the cap is zero or negative, or there is no limits collaborator,
    the call goes on to the slow path, whose mutator has no other error
    than [ReplicasNotMatchError]. *)
Theorem CheckReplica_group_cap userID replicaGroup replica now c :
  EnableHATracker (cfg c) = true ->
  elected c !! makeKey userID replicaGroup = None ->
  (forall l N,
      limits c = Some l -> l userID = N ->
      0 < N -> Z.of_nat (size (groupsOf c userID)) + 1 > N ->
      CheckReplica userID replicaGroup replica now c
      = (Some (ErrTooManyReplicaGroups (mkTooManyReplicaGroupsError N)), c))
  /\ ((limits c = None \/ exists l, limits c = Some l /\ l userID <= 0) ->
      CheckReplica userID replicaGroup replica now c
      = slowPath userID replicaGroup replica now c
      /\ calls (CheckReplica userID replicaGroup replica now c).2
         = calls c ++ [CallCAS (makeKey userID replicaGroup)]
      /\ forall wallNow in_ e,
          (checkKVStore_mutator c replica now wallNow in_).2 = Some e ->
          exists r, e = ErrReplicasNotMatch r).
Proof.
  intros Hen Hnone. split.
  - intros l N Hl HN Hpos Hover. unfold CheckReplica, groupsOf in *.
    rewrite Hen, Hnone, Hl. cbn.
    rewrite HN.
    assert ((0 <? N) = true) as -> by (apply Z.ltb_lt; lia).
    match goal with |- context [N <? ?x] =>
      assert ((N <? x) = true) as -> by (apply Z.ltb_lt; lia) end.
    reflexivity.
  - intros Hlim.
    assert (Hslow : CheckReplica userID replicaGroup replica now c
                    = slowPath userID replicaGroup replica now c).
    { unfold CheckReplica, slowPath. rewrite Hen, Hnone. cbn.
      destruct Hlim as [-> | (l & -> & Hle)]; [reflexivity|].
      assert ((0 <? l userID) = false) as -> by (apply Z.ltb_ge; lia).
      reflexivity. }
    split; [exact Hslow|]. split.
    + rewrite Hslow. unfold slowPath, checkKVStore.
      pose proof (callClient_calls (CallCAS (makeKey userID replicaGroup))
                    (kv_CAS (makeKey userID replicaGroup)
                       (checkKVStore_mutator c replica now)) c) as Hc.
      destruct (callClient _ _ c) as [err c']. simpl in *. exact Hc.
    + intros wallNow in_ e. unfold checkKVStore_mutator.
      destruct in_ as [|desc|]; simpl; try discriminate.
      destruct (DeletedAt desc =? 0); simpl; try discriminate.
      destruct (_ && _); simpl; try discriminate.
      destruct (_ && _); simpl; try discriminate.
      intros [= <-]. eauto.
Qed.

End AdmissionProperties.

(** ** The slow-path mutator *)

Section MutatorProperties.

Context {W : Type} `{!KVClient W}.

Implicit Types c : HATracker W.

(** C2, amended.  On a stored descriptor that is live ([DeletedAt] is 0)
    the mutator changes nothing when the descriptor names the requesting
    replica and is younger than the update timeout plus jitter; it
    rejects with [ReplicasNotMatchError] (writing nothing) when the
    descriptor names another replica and is younger than the failover
    timeout; in every other case (no stored value, a tombstone, the same
    replica at or past update timeout plus jitter, another replica at or
    past the failover timeout, the boundary included) it writes the
    fresh descriptor with the requesting replica, [ReceivedAt] now and
    [DeletedAt] 0. *)
Theorem checkKVStore_mutator_cases c replica now wallNow in_ :
  let age desc := Sub now (timestamp_Time (ReceivedAt desc)) in
  let window := dur_add (UpdateTimeout (cfg c)) (updateTimeoutJitter c) in
  (forall desc,
      in_ = KVDesc desc -> DeletedAt desc = 0 ->
      Replica desc = replica -> age desc < window ->
      checkKVStore_mutator c replica now wallNow in_ = (KVNil, false, None))
  /\ (forall desc,
      in_ = KVDesc desc -> DeletedAt desc = 0 ->
      Replica desc <> replica -> age desc < FailoverTimeout (cfg c) ->
      checkKVStore_mutator c replica now wallNow in_
      = (KVNil, false,
         Some (ErrReplicasNotMatch (mkReplicasNotMatchError replica (Replica desc)))))
  /\ ((in_ = KVNil \/ in_ = KVOther
       \/ exists desc, in_ = KVDesc desc
            /\ (DeletedAt desc <> 0
                \/ (Replica desc = replica /\ window <= age desc)
                \/ (Replica desc <> replica /\ FailoverTimeout (cfg c) <= age desc))) ->
      checkKVStore_mutator c replica now wallNow in_
      = (KVDesc (freshDesc replica now), true, None)).
Proof.
  intros age window. unfold checkKVStore_mutator, freshDesc. repeat split.
  - intros desc -> Hlive Hsame Hage.
    apply Z.eqb_eq in Hlive. rewrite Hlive.
    apply String.eqb_eq in Hsame. rewrite Hsame.
    apply Z.ltb_lt in Hage. fold (age desc) window. by rewrite Hage.
  - intros desc -> Hlive Hdiff Hage.
    apply Z.eqb_eq in Hlive. rewrite Hlive.
    apply String.eqb_neq in Hdiff. rewrite Hdiff.
    apply Z.ltb_lt in Hage. fold (age desc). by rewrite Hage.
  - intros [-> | [-> | (desc & -> & Hcase)]]; [reflexivity | reflexivity |].
    destruct (Z.eqb_spec (DeletedAt desc) 0) as [Hlive|Hdead]; [|reflexivity].
    destruct Hcase as [Hd | [[Hsame Hage] | [Hdiff Hage]]]; [contradiction | |].
    + apply String.eqb_eq in Hsame. rewrite Hsame. simpl.
      apply Z.ltb_ge in Hage. fold (age desc) window. by rewrite Hage.
    + apply String.eqb_neq in Hdiff. rewrite Hdiff. simpl.
      apply Z.ltb_ge in Hage. fold (age desc). by rewrite Hage.
Qed.

(** The cleanup mutator leaves a stored tombstone alone, and marks any
    other stored descriptor once the descriptor of the earlier read is
    stale, whatever the stored [ReceivedAt]. *)
Lemma cleanup_mutator_cases desc deadline wallNow d :
  (0 < DeletedAt d ->
     cleanup_mutator desc deadline wallNow (KVDesc d) = (KVNil, false, None))
  /\ (~ 0 < DeletedAt d ->
      Before (timestamp_Time (ReceivedAt desc)) deadline = true ->
      cleanup_mutator desc deadline wallNow (KVDesc d)
      = (KVDesc (mkReplicaDesc (Replica d) (ReceivedAt d) (timestamp_FromTime wallNow)),
         true, None)).
Proof.
  unfold cleanup_mutator. split.
  - intros Hdel. apply Z.ltb_lt in Hdel. by rewrite Hdel.
  - intros Hlive Hstale. rewrite Hstale.
    assert ((0 <? DeletedAt d) = false) as -> by (apply Z.ltb_ge; lia). reflexivity.
Qed.

End MutatorProperties.

(** ** The cache is written by the watch callback only *)

Section FrameProperties.

Context {W : Type} `{!KVClient W}.

Implicit Types c : HATracker W.

Lemma sameCache_refl c : sameCache c c.
Proof. by repeat split. Qed.

Lemma sameCache_trans c1 c2 c3 : sameCache c1 c2 -> sameCache c2 c3 -> sameCache c1 c3.
Proof. intros (? & ? & ?) (? & ? & ?). repeat split; congruence. Qed.

Lemma sameCache_callClient {A : Type} (call : KVCall) (op : W -> A * W) c :
  sameCache c (callClient call op c).2.
Proof. apply callClient_cache. Qed.

Lemma sameCache_cleanupKey deadline key c : sameCache c (cleanupKey deadline key c).
Proof.
  unfold cleanupKey.
  pose proof (sameCache_callClient (CallGet key) (kv_Get key) c) as Hget.
  destruct (callClient (CallGet key) (kv_Get key) c) as [[val err] c1]. simpl in Hget.
  destruct err; [exact Hget|].
  destruct val as [|desc|]; try exact Hget.
  destruct (0 <? DeletedAt desc).
  - destruct (After _ _); [exact Hget|].
    pose proof (sameCache_callClient (CallDelete key) (kv_Delete key) c1) as Hdel.
    destruct (callClient (CallDelete key) (kv_Delete key) c1) as [err c2]. simpl in Hdel.
    eapply sameCache_trans; [exact Hget|].
    eapply sameCache_trans; [exact Hdel|]. by destruct err.
  - destruct (_ && _); [|exact Hget].
    pose proof (sameCache_callClient (CallCAS key)
                  (kv_CAS key (cleanup_mutator desc deadline)) c1) as Hcas.
    destruct (callClient (CallCAS key) _ c1) as [err c2]. simpl in Hcas.
    eapply sameCache_trans; [exact Hget|].
    eapply sameCache_trans; [exact Hcas|]. by destruct err.
Qed.

Lemma sameCache_cleanupKeys deadline keys c : sameCache c (cleanupKeys deadline keys c).
Proof.
  revert c. induction keys as [|key rest IH]; intros c; simpl.
  - apply sameCache_refl.
  - destruct (ctx_Err (world c)); [apply sameCache_refl|].
    eapply sameCache_trans; [apply sameCache_cleanupKey | apply IH].
Qed.

Lemma sameCache_cleanupOldReplicas deadline c : sameCache c (cleanupOldReplicas deadline c).
Proof.
  unfold cleanupOldReplicas.
  pose proof (sameCache_callClient (CallList EmptyString) (kv_List EmptyString) c) as Hl.
  destruct (callClient _ _ c) as [[keys err] c1]. simpl in Hl.
  destruct err; [exact Hl|].
  eapply sameCache_trans; [exact Hl | apply sameCache_cleanupKeys].
Qed.

Lemma sameCache_CheckReplica userID replicaGroup replica now c :
  sameCache c (CheckReplica userID replicaGroup replica now c).2.
Proof.
  destruct (CheckReplica_slow_or_same userID replicaGroup replica now c) as [-> | ->].
  - apply sameCache_refl.
  - unfold slowPath, checkKVStore.
    pose proof (sameCache_callClient (CallCAS (makeKey userID replicaGroup))
                  (kv_CAS (makeKey userID replicaGroup)
                     (checkKVStore_mutator c replica now)) c) as Hcas.
    destruct (callClient _ _ c) as [err c1]. exact Hcas.
Qed.

(** Every operation but the watch callback keeps the cache maps and the
    counter of elected-replica changes, except that the upkeep of metrics
    for a departing tenant drops series of the counter. *)
Lemma sameCache_runOp op c :
  match op with
  | OpWatch _ _ | OpCleanupHATrackerMetricsForUser _ => False
  | _ => True
  end ->
  sameCache c (runOp op c).
Proof.
  destruct op as [userID replicaGroup replica now| | t | | |userID]; simpl; try done; intros _.
  - apply sameCache_CheckReplica.
  - unfold cleanupTick.
    apply (sameCache_cleanupOldReplicas _ (set_cleanupRuns (S (cleanupRuns c)) c)).
Qed.

Lemma cacheMaps_CleanupHATrackerMetricsForUser userID c :
  elected (CleanupHATrackerMetricsForUser userID c) = elected c
  /\ replicaGroups (CleanupHATrackerMetricsForUser userID c) = replicaGroups c.
Proof. by split. Qed.

(** C9.  [CheckReplica] leaves [elected] and [replicaGroups] as they
    were, whatever its input and whatever the client does; and of all
    the operations of the tracker the watch callback is the only one
    that writes either map. *)
Theorem CheckReplica_preserves_cache :
  (forall userID replicaGroup replica now c,
      elected (CheckReplica userID replicaGroup replica now c).2 = elected c
      /\ replicaGroups (CheckReplica userID replicaGroup replica now c).2 = replicaGroups c)
  /\ (forall op c,
      match op with
      | OpWatch _ _ => True
      | _ => elected (runOp op c) = elected c
             /\ replicaGroups (runOp op c) = replicaGroups c
      end).
Proof.
  split.
  - intros userID replicaGroup replica now c.
    destruct (sameCache_CheckReplica userID replicaGroup replica now c) as (? & ? & _).
    by split.
  - intros op c.
    destruct op as [userID replicaGroup replica now|key replica|t| | |userID];
      [ | exact I | | | | apply cacheMaps_CleanupHATrackerMetricsForUser ].
    + destruct (sameCache_runOp (OpCheckReplica userID replicaGroup replica now) c I)
        as (? & ? & _); by split.
    + destruct (sameCache_runOp (OpCleanupTick t) c I) as (? & ? & _); by split.
    + destruct (sameCache_runOp OpSnapshotElectedReplicas c I) as (? & ? & _); by split.
    + destruct (sameCache_runOp OpUpdateUserReplicaGroupCount c I) as (? & ? & _); by split.
Qed.

End FrameProperties.


(** ** The cleanup sweep *)

Section CleanupProperties.

Context {W : Type} `{!KVClient W}.

Implicit Types c : HATracker W.

Lemma cleanupKey_tombstone_calls deadline key c desc w' :
  kv_Get key (world c) = ((KVDesc desc, None), w') ->
  0 < DeletedAt desc ->
  calls (cleanupKey deadline key c)
  = calls c ++ [CallGet key]
    ++ (if timestamp_Time (DeletedAt desc) <=? deadline then [CallDelete key] else []).
Proof.
  intros Hget Hdel. unfold cleanupKey, callClient at 1. rewrite Hget.
  apply Z.ltb_lt in Hdel. rewrite Hdel. unfold After.
  destruct (Z.ltb_spec deadline (timestamp_Time (DeletedAt desc))) as [Hlt|Hge].
  - assert ((timestamp_Time (DeletedAt desc) <=? deadline) = false) as ->
      by (apply Z.leb_gt; lia).
    reflexivity.
  - assert ((timestamp_Time (DeletedAt desc) <=? deadline) = true) as ->
      by (apply Z.leb_le; lia).
    unfold callClient. simpl.
    destruct (kv_Delete key w') as [err w'']. destruct err; simpl; by rewrite <- app_assoc.
Qed.

Lemma cleanupKey_calls deadline key c :
  exists extra,
    calls (cleanupKey deadline key c) = calls c ++ CallGet key :: extra
    /\ (extra = [] \/ extra = [CallCAS key]
        \/ (extra = [CallDelete key] /\ deletable deadline key)).
Proof.
  unfold cleanupKey, callClient at 1.
  destruct (kv_Get key (world c)) as [[val err] w'] eqn:Hget.
  destruct err; [exists nil; simpl; auto|].
  destruct val as [|desc|]; [exists nil; simpl; auto | | exists nil; simpl; auto].
  destruct (Z.ltb_spec 0 (DeletedAt desc)) as [Hdel|Hlive].
  - unfold After.
    destruct (Z.ltb_spec deadline (timestamp_Time (DeletedAt desc))) as [Hlt|Hge].
    + exists nil; simpl; auto.
    + exists [CallDelete key]. unfold callClient. simpl.
      destruct (kv_Delete key w') as [err w'']. split.
      * destruct err; simpl; by rewrite <- app_assoc.
      * right; right. split; [reflexivity|]. by exists (world c), desc, w'.
  - destruct (_ && _); [|exists nil; simpl; auto].
    exists [CallCAS key]. unfold callClient. simpl.
    destruct (kv_CAS key _ w') as [err w'']. split; [|auto].
    destruct err; simpl; by rewrite <- app_assoc.
Qed.

Lemma cleanupKeys_deletes_justified deadline keys c key :
  In (CallDelete key) (calls (cleanupKeys deadline keys c)) ->
  In (CallDelete key) (calls c) \/ deletable deadline key.
Proof.
  revert c. induction keys as [|k rest IH]; intros c; simpl; [auto|].
  destruct (ctx_Err (world c)); [auto|].
  intros Hin. destruct (IH _ Hin) as [Hold|Hnew]; [|auto].
  destruct (cleanupKey_calls deadline k c) as (extra & Hcalls & Hextra).
  rewrite Hcalls in Hold. apply in_app_or in Hold as [Hc|Hk]; [auto|].
  destruct Hk as [Hk|Hk]; [discriminate|].
  destruct Hextra as [-> | [-> | [-> Hd]]]; simpl in Hk.
  - contradiction.
  - destruct Hk as [Hk|[]]. discriminate.
  - destruct Hk as [Hk|[]]. by injection Hk as ->; right.
Qed.

(** C6, amended.  When the sweep reaches a key for which the client
    returns a tombstone ([DeletedAt] above 0), it calls [Delete] on the
    key, and never [CAS], exactly when the tombstone time is not after
    the deadline, that is [DeletedAt <= now - deletionTimeout]; so at
    every blind delete of a sweep at time [now] the tombstone is at
    least [deletionTimeout] old. *)
Theorem cleanup_deletes_expired_tombstone :
  (forall deadline key c desc w',
      kv_Get key (world c) = ((KVDesc desc, None), w') ->
      0 < DeletedAt desc ->
      calls (cleanupKey deadline key c)
      = calls c ++ [CallGet key]
        ++ (if timestamp_Time (DeletedAt desc) <=? deadline then [CallDelete key] else []))
  /\ (forall now c key,
      In (CallDelete key) (calls (cleanupTick now c)) ->
      In (CallDelete key) (calls c)
      \/ exists (w : W) desc w',
          kv_Get key w = ((KVDesc desc, None), w')
          /\ 0 < DeletedAt desc
          /\ deletionTimeout <= now - timestamp_Time (DeletedAt desc)).
Proof.
  split; [apply cleanupKey_tombstone_calls|].
  intros now c key Hin. unfold cleanupTick, cleanupOldReplicas in Hin.
  unfold callClient at 1 in Hin. simpl in Hin.
  destruct (kv_List EmptyString (world c)) as [[keys err] w1].
  assert (Hd : In (CallDelete key) (calls c)
               \/ deletable (Add now (dur_neg deletionTimeout)) key).
  { assert (Hlist : forall l, In (CallDelete key) (l ++ [CallList EmptyString]) ->
                              In (CallDelete key) l).
    { intros l Hl. apply in_app_or in Hl as [?|[?|[]]]; [done | discriminate]. }
    destruct err.
    - left. by apply Hlist.
    - apply cleanupKeys_deletes_justified in Hin as [Hin|Hd]; [left | by right].
      by apply Hlist. }
  destruct Hd as [Hold | (w & desc & w' & Hget & Hpos & Hle)]; [by left | right].
  exists w, desc, w'. repeat split; [exact Hget | exact Hpos |].
  unfold Add in Hle.
  replace (dur_neg deletionTimeout) with (- deletionTimeout) in Hle by reflexivity.
  lia.
Qed.

End CleanupProperties.

(** ** Keys *)

Lemma strings_Cut_slash_cons (a : Ascii.ascii) (s : string) :
  strings_Cut (String a s) "/"
  = if Ascii.eqb "/"%char a then (EmptyString, s, true)
    else let '(before, after, found) := strings_Cut s "/" in (String a before, after, found).
Proof.
  change (strings_Cut (String a s) "/") with
    (match (if Ascii.eqb "/"%char a then stripPrefix EmptyString s else None) with
     | Some rest => (EmptyString, rest, true)
     | None =>
         let '(before, after, found) := strings_Cut s "/" in
         (String a before, after, found)
     end).
  destruct (Ascii.eqb "/"%char a); reflexivity.
Qed.

Lemma hasSeparator_cons (a : Ascii.ascii) (s : string) :
  hasSeparator (String a s) = Ascii.eqb "/"%char a || hasSeparator s.
Proof.
  unfold hasSeparator. rewrite strings_Cut_slash_cons.
  destruct (Ascii.eqb "/"%char a); [reflexivity|].
  by destruct (strings_Cut s "/") as [[? ?] ?].
Qed.

(** A key with a separator is the key of the tenant and group it is cut
    into, and the tenant has no separator. *)
Lemma strings_Cut_found (key user cluster : string) :
  strings_Cut key "/" = (user, cluster, true) ->
  key = makeKey user cluster /\ hasSeparator user = false.
Proof.
  revert user. induction key as [|a key IH]; intros user.
  - discriminate.
  - rewrite strings_Cut_slash_cons.
    destruct (Ascii.eqb_spec "/"%char a) as [<-|Hne].
    + intros [= <- <-]. by split.
    + destruct (strings_Cut key "/") as [[before after] found].
      intros [= <- <- ->]. destruct (IH before eq_refl) as [-> Hsep]. split.
      * reflexivity.
      * rewrite hasSeparator_cons, Hsep.
        by destruct (Ascii.eqb_spec "/"%char a).
Qed.

(** The key of a tenant without separator and a group is cut back into
    the two. *)
Lemma strings_Cut_makeKey (user cluster : string) :
  hasSeparator user = false ->
  strings_Cut (makeKey user cluster) "/" = (user, cluster, true).
Proof.
  induction user as [|a user IH]; intros Hsep.
  - reflexivity.
  - rewrite hasSeparator_cons in Hsep. apply orb_false_elim in Hsep as [Ha Hsep].
    change (makeKey (String a user) cluster) with (String a (makeKey user cluster)).
    rewrite strings_Cut_slash_cons, Ha. by rewrite (IH Hsep).
Qed.

Lemma makeKey_inj (u g u' g' : string) :
  hasSeparator u = false -> hasSeparator u' = false ->
  makeKey u g = makeKey u' g' -> u = u' /\ g = g'.
Proof.
  intros Hu Hu' Heq.
  pose proof (strings_Cut_makeKey u g Hu) as H1.
  pose proof (strings_Cut_makeKey u' g' Hu') as H2.
  rewrite Heq in H1. rewrite H1 in H2. by injection H2.
Qed.

(** ** The cache invariant *)

Section CacheInvariant.

Context {W : Type} `{!KVClient W}.

Implicit Types c : HATracker W.

Lemma watchCallback_continues key replica c : (watchCallback key replica c).1 = true.
Proof.
  unfold watchCallback. destruct (strings_Cut key "/") as [[user cluster] found].
  destruct (negb found); [reflexivity|]. by destruct (0 <? DeletedAt replica).
Qed.

Lemma watchEvents_snoc events key replica c :
  watchEvents (events ++ [(key, replica)]) c
  = (watchCallback key replica (watchEvents events c)).2.
Proof.
  revert c. induction events as [|[k v] rest IH]; intros c; simpl.
  - pose proof (watchCallback_continues key replica c) as Ht.
    destruct (watchCallback key replica c) as [b c']. simpl in *. by rewrite Ht.
  - pose proof (watchCallback_continues k v c) as Ht.
    destruct (watchCallback k v c) as [b c']. simpl in *. rewrite Ht. apply IH.
Qed.

Lemma watchCallback_ignores_key key replica c :
  (strings_Cut key "/").2 = false -> (watchCallback key replica c).2 = c.
Proof.
  unfold watchCallback. destruct (strings_Cut key "/") as [[user cluster] found].
  simpl. by intros ->.
Qed.

(** The cache after a tombstone notification. *)
Lemma watchCallback_tombstone key replica c user cluster :
  strings_Cut key "/" = (user, cluster, true) ->
  0 < DeletedAt replica ->
  elected (watchCallback key replica c).2 = delete key (elected c)
  /\ (forall u, groupsOf (watchCallback key replica c).2 u
                = if decide (u = user) then groupsOf c user ∖ {[cluster]} else groupsOf c u)
  /\ (noEmptyTenant c -> noEmptyTenant (watchCallback key replica c).2).
Proof.
  intros Hcut Hdel. unfold watchCallback. rewrite Hcut. simpl.
  apply Z.ltb_lt in Hdel. rewrite Hdel. simpl.
  unfold groupsOf, noEmptyTenant.
  destruct (replicaGroups c !! user) as [userClusters|] eqn:Hu; simpl.
  - destruct (Nat.eqb_spec (size (userClusters ∖ {[cluster]})) 0) as [Hz|Hnz]; simpl.
    + apply size_empty_iff in Hz. apply leibniz_equiv in Hz.
      split; [reflexivity|]. split.
      * intros u. case_decide as Hdec.
        -- subst u. rewrite lookup_delete_eq. simpl. by rewrite Hz.
        -- by rewrite lookup_delete_ne.
      * intros Hne u. destruct (decide (u = user)) as [->|Hdec].
        -- by rewrite lookup_delete_eq.
        -- rewrite lookup_delete_ne by auto. apply Hne.
    + split; [reflexivity|]. split.
      * intros u. case_decide as Hdec.
        -- subst u. rewrite lookup_insert_eq. reflexivity.
        -- by rewrite lookup_insert_ne.
      * intros Hne u. destruct (decide (u = user)) as [->|Hdec].
        -- rewrite lookup_insert_eq. intros [= Hempty].
           apply Hnz. rewrite Hempty. apply size_empty.
        -- rewrite lookup_insert_ne by auto. apply Hne.
  - split; [reflexivity|]. split.
    + intros u. case_decide as Hdec; [|reflexivity].
      subst u. rewrite Hu. simpl. by rewrite empty_difference_L.
    + auto.
Qed.

(** The cache after a notification of a live descriptor. *)
Lemma watchCallback_live key replica c user cluster :
  strings_Cut key "/" = (user, cluster, true) ->
  ~ 0 < DeletedAt replica ->
  elected (watchCallback key replica c).2 = <[key := replica]> (elected c)
  /\ (forall u, groupsOf (watchCallback key replica c).2 u
                = if decide (u = user)
                  then (if decide (is_Some (elected c !! key))
                        then groupsOf c user else groupsOf c user ∪ {[cluster]})
                  else groupsOf c u)
  /\ (noEmptyTenant c -> noEmptyTenant (watchCallback key replica c).2).
Proof.
  intros Hcut Hlive. unfold watchCallback. rewrite Hcut. simpl.
  assert ((0 <? DeletedAt replica) = false) as -> by (apply Z.ltb_ge; lia).
  unfold groupsOf, noEmptyTenant.
  set (counted := if negb (String.eqb _ _) then _ else c).
  assert (Hcounted : elected counted = elected c /\ replicaGroups counted = replicaGroups c).
  { subst counted. by destruct (negb _). }
  destruct Hcounted as [Hce Hcg].
  case_bool_decide as Hex; simpl; rewrite ?Hce, ?Hcg.
  - split; [reflexivity|]. split.
    + intros u. destruct (decide (u = user)) as [->|]; [|done].
      by destruct (decide (is_Some (elected c !! key))).
    + auto.
  - split; [reflexivity|]. split.
    + intros u. destruct (decide (is_Some (elected c !! key))); [done|].
      destruct (decide (u = user)) as [->|Hdec].
      * by rewrite lookup_insert_eq.
      * by rewrite lookup_insert_ne.
    + intros Hne u. destruct (decide (u = user)) as [->|Hdec].
      * rewrite lookup_insert_eq. intros [= Hempty].
        apply empty_union_L in Hempty as [_ Hsingle].
        apply (not_elem_of_empty (C:=gset string) cluster).
        rewrite <- Hsingle. by apply elem_of_singleton.
      * rewrite lookup_insert_ne by auto. apply Hne.
Qed.

Lemma watchCallback_keeps_invariant key replica c :
  groupsMirrorElected c /\ electedLive c /\ noEmptyTenant c ->
  groupsMirrorElected (watchCallback key replica c).2
  /\ electedLive (watchCallback key replica c).2
  /\ noEmptyTenant (watchCallback key replica c).2.
Proof.
  intros (Hmirror & Hlive & Hne).
  destruct (strings_Cut key "/") as [[user cluster] found] eqn:Hcut.
  destruct found; cycle 1.
  { rewrite watchCallback_ignores_key by (by rewrite Hcut). auto. }
  destruct (strings_Cut_found _ _ _ Hcut) as [Hkey Hsep].
  destruct (Z.lt_ge_cases 0 (DeletedAt replica)) as [Hdel|Hnd].
  - destruct (watchCallback_tombstone key replica c user cluster Hcut Hdel)
      as (He & Hg & Hn).
    split; [|split; [|auto]].
    + intros u g. rewrite Hg, He, lookup_delete_is_Some.
      destruct (decide (u = user)) as [->|Hdec].
      * rewrite elem_of_difference, elem_of_singleton, (Hmirror user g).
        split.
        -- intros [[? ?] Hgc]. repeat split; try done.
           intros Heq. apply Hgc. rewrite Hkey in Heq.
           by destruct (makeKey_inj _ _ _ _ Hsep Hsep Heq).
        -- intros [? [Hk ?]]. repeat split; try done.
           intros ->. by apply Hk.
      * rewrite (Hmirror u g). split.
        -- intros [Hu ?]. repeat split; try done.
           intros Heq. rewrite Hkey in Heq.
           destruct (makeKey_inj _ _ _ _ Hsep Hu Heq). by apply Hdec.
        -- tauto.
    + intros k d. rewrite He. intros Hk. apply lookup_delete_Some in Hk as [_ Hk].
      by apply (Hlive k d).
  - destruct (watchCallback_live key replica c user cluster Hcut ltac:(lia))
      as (He & Hg & Hn).
    split; [|split; [|auto]].
    + intros u g. rewrite Hg, He, lookup_insert_is_Some.
      destruct (decide (u = user)) as [->|Hdec].
      * destruct (decide (is_Some (elected c !! key))) as [Hex|Hex].
        -- rewrite (Hmirror user g). split.
           ++ intros [? ?]. split; [done|].
              destruct (decide (key = makeKey user g)); auto.
           ++ intros [? [<- | [_ ?]]]; tauto.
        -- rewrite elem_of_union, elem_of_singleton, (Hmirror user g). split.
           ++ intros [[? ?] | ->]; [|by rewrite Hkey; auto].
              split; [done|]. destruct (decide (key = makeKey user g)); auto.
           ++ intros [? [Heq | [_ ?]]]; [|tauto].
              right. rewrite Hkey in Heq.
              by destruct (makeKey_inj _ _ _ _ Hsep Hsep Heq).
      * rewrite (Hmirror u g). split.
        -- intros [Hu ?]. split; [done|]. right. split; [|done].
           intros Heq. rewrite Hkey in Heq.
           destruct (makeKey_inj _ _ _ _ Hsep Hu Heq). by apply Hdec.
        -- intros [Hu [Heq | [_ ?]]]; [|tauto].
           rewrite Hkey in Heq.
           destruct (makeKey_inj _ _ _ _ Hsep Hu Heq). by destruct Hdec.
    + intros k d. rewrite He. intros Hk. apply lookup_insert_Some in Hk as [[_ <-]|[_ Hk]].
      * lia.
      * by apply (Hlive k d).
Qed.

Lemma watchEvents_invariant events c0 :
  emptyCache c0 ->
  groupsMirrorElected (watchEvents events c0)
  /\ electedLive (watchEvents events c0)
  /\ noEmptyTenant (watchEvents events c0).
Proof.
  intros [He Hg]. induction events as [|[key replica] events IH] using rev_ind.
  - simpl. split; [|split].
    + intros u g. unfold groupsOf. rewrite Hg, He, !lookup_empty. simpl. split.
      * intros Hin. by apply not_elem_of_empty in Hin.
      * intros [_ [d Hd]]. discriminate.
    + intros k d. rewrite He, lookup_empty. discriminate.
    + intros u. rewrite Hg, lookup_empty. discriminate.
  - rewrite watchEvents_snoc. by apply watchCallback_keeps_invariant.
Qed.

(** C5, amended.  In every cache reached from the empty cache by watch
    notifications, for every tenant [t] without separator the set
    [replicaGroups[t]] holds exactly the groups [g] for which the key of
    [t] and [g] is in [elected]; every entry of [elected] is live; no
    tenant is kept with an empty set; and a tombstone notification for a
    key removes, in that one step, the key from [elected] and its group
    from the tenant's set, and the tenant itself when no group is left. *)
Theorem replicaGroups_mirror_elected events c0 :
  emptyCache c0 ->
  let c := watchEvents events c0 in
  (forall t g,
      hasSeparator t = false ->
      (g ∈ groupsOf c t <-> is_Some (elected c !! makeKey t g)))
  /\ (forall key desc, elected c !! key = Some desc -> ~ 0 < DeletedAt desc)
  /\ (forall t, replicaGroups c !! t <> Some ∅)
  /\ (forall key replica user cluster,
      strings_Cut key "/" = (user, cluster, true) ->
      0 < DeletedAt replica ->
      let c' := (watchCallback key replica c).2 in
      elected c' !! key = None
      /\ (cluster ∉ groupsOf c' user)
      /\ (groupsOf c user ⊆ {[cluster]} -> replicaGroups c' !! user = None)).
Proof.
  intros Hempty c.
  destruct (watchEvents_invariant events c0 Hempty) as (Hmirror & Hlive & Hne).
  fold c in Hmirror, Hlive, Hne.
  split; [|split; [exact Hlive|split; [exact Hne|]]].
  - intros t g Hsep. rewrite (Hmirror t g). tauto.
  - intros key replica user cluster Hcut Hdel c'. subst c'.
    destruct (watchCallback_tombstone key replica c user cluster Hcut Hdel)
      as (He & Hg & Hn).
    split; [|split].
    + rewrite He. apply lookup_delete_eq.
    + rewrite Hg, decide_True by reflexivity.
      rewrite elem_of_difference, elem_of_singleton. tauto.
    + intros Hsub. specialize (Hn Hne user). specialize (Hg user).
      rewrite decide_True in Hg by reflexivity. unfold groupsOf in Hg at 1.
      destruct (replicaGroups (watchCallback key replica c).2 !! user) as [s|]; [|done].
      simpl in Hg. exfalso. apply Hn. f_equal. rewrite Hg.
      by apply subseteq_empty_difference_L.
Qed.

End CacheInvariant.

(** ** The watch callback: counting replica changes *)

Section WatchCounter.

Context {W : Type} `{!KVClient W}.

Implicit Types c : HATracker W.

Lemma counterValue_delete {K : Type} `{Countable K} (vec : gmap K nat) (k labels : K) :
  (counterValue (delete k vec) labels <= counterValue vec labels)%nat.
Proof.
  unfold counterValue. destruct (decide (k = labels)) as [->|Hne].
  - rewrite lookup_delete_eq. simpl. lia.
  - by rewrite lookup_delete_ne.
Qed.

Lemma counterValue_filter {K : Type} `{Countable K} (P : K * nat -> Prop)
    `{!forall x, Decision (P x)} (vec : gmap K nat) (labels : K) :
  (counterValue (filter P vec) labels <= counterValue vec labels)%nat.
Proof.
  unfold counterValue. destruct (filter P vec !! labels) as [n|] eqn:Hf; simpl; [|lia].
  apply map_lookup_filter_Some in Hf as [-> _]. reflexivity.
Qed.

Lemma watchCallback_tombstone_counter key replica c user cluster :
  strings_Cut key "/" = (user, cluster, true) ->
  0 < DeletedAt replica ->
  electedReplicaChanges (watchCallback key replica c).2
  = delete (user, cluster) (electedReplicaChanges c).
Proof.
  intros Hcut Hdel. unfold watchCallback. rewrite Hcut. simpl.
  apply Z.ltb_lt in Hdel. rewrite Hdel. simpl.
  destruct (replicaGroups c !! user) as [userClusters|]; simpl; [|reflexivity].
  by destruct (size (userClusters ∖ {[cluster]}) =? 0)%nat.
Qed.

Lemma watchCallback_live_counter key replica c user cluster :
  strings_Cut key "/" = (user, cluster, true) ->
  ~ 0 < DeletedAt replica ->
  let c' := (watchCallback key replica c).2 in
  let before := counterValue (electedReplicaChanges c) (user, cluster) in
  (Replica replica <> Replica (cachedDesc (elected c) key) ->
     counterValue (electedReplicaChanges c') (user, cluster) = S before)
  /\ (Replica replica = Replica (cachedDesc (elected c) key) ->
     electedReplicaChanges c' = electedReplicaChanges c)
  /\ (forall labels, labels <> (user, cluster) ->
     electedReplicaChanges c' !! labels = electedReplicaChanges c !! labels)
  /\ elected c' !! key = Some replica.
Proof.
  intros Hcut Hlive c'. subst c'. unfold watchCallback, cachedDesc, counterValue.
  rewrite Hcut. simpl.
  assert ((0 <? DeletedAt replica) = false) as -> by (apply Z.ltb_ge; lia).
  destruct (String.eqb_spec (Replica replica)
              (Replica (default zeroReplicaDesc (elected c !! key)))) as [Heq|Hne];
    simpl; destruct (negb _); simpl; repeat split; try congruence;
    unfold CounterVec_Inc;
    try (intros; by rewrite lookup_insert_ne);
    try (by rewrite lookup_insert_eq).
Qed.

(** C8.  On a notification of a live descriptor for a key with a
    separator, the counter of elected-replica changes of (tenant, replica
    group) goes up by exactly one when the observed replica differs from
    [elected[key].Replica] as cached before the notification (a missing
    key reads as the zero descriptor, whose replica is the empty string),
    and stays as it was when the two are equal; no other series of the
    counter moves; the comparison is made against the cache as it was, and
    the observed descriptor is in the cache afterwards.  No operation of
    the tracker raises a series of the counter in any other way. *)
Theorem watchCallback_counts_replica_change :
  (forall key replica c user cluster,
      strings_Cut key "/" = (user, cluster, true) ->
      ~ 0 < DeletedAt replica ->
      let c' := (watchCallback key replica c).2 in
      let before := counterValue (electedReplicaChanges c) (user, cluster) in
      (Replica replica <> Replica (cachedDesc (elected c) key) ->
         counterValue (electedReplicaChanges c') (user, cluster) = S before)
      /\ (Replica replica = Replica (cachedDesc (elected c) key) ->
         electedReplicaChanges c' = electedReplicaChanges c)
      /\ (forall labels, labels <> (user, cluster) ->
         electedReplicaChanges c' !! labels = electedReplicaChanges c !! labels)
      /\ elected c' !! key = Some replica)
  /\ (forall op c labels,
      (counterValue (electedReplicaChanges c) labels
       < counterValue (electedReplicaChanges (runOp op c)) labels)%nat ->
      exists key replica user cluster,
        op = OpWatch key replica
        /\ strings_Cut key "/" = (user, cluster, true)
        /\ labels = (user, cluster)
        /\ ~ 0 < DeletedAt replica
        /\ Replica replica <> Replica (cachedDesc (elected c) key)).
Proof.
  split; [exact watchCallback_live_counter|].
  intros op c labels Hlt.
  assert (Hkept : forall op', sameCache c (runOp op' c) ->
            ~ (counterValue (electedReplicaChanges c) labels
               < counterValue (electedReplicaChanges (runOp op' c)) labels)%nat).
  { intros op' (_ & _ & ->). lia. }
  destruct op as [userID replicaGroup replica now|key replica|t| | |userID].
  - exfalso. by apply (Hkept _ (sameCache_runOp (OpCheckReplica userID replicaGroup replica now) c I)).
  - simpl in Hlt.
    destruct (strings_Cut key "/") as [[user cluster] found] eqn:Hcut.
    destruct found; cycle 1.
    { rewrite watchCallback_ignores_key in Hlt by (by rewrite Hcut). lia. }
    destruct (Z.lt_ge_cases 0 (DeletedAt replica)) as [Hdel|Hlive].
    { rewrite (watchCallback_tombstone_counter _ _ _ _ _ Hcut Hdel) in Hlt.
      pose proof (counterValue_delete (electedReplicaChanges c) (user, cluster) labels). lia. }
    assert (Hl : ~ 0 < DeletedAt replica) by lia.
    destruct (watchCallback_live_counter key replica c user cluster Hcut Hl)
      as (_ & Hsame & Hother & _).
    destruct (decide (Replica replica = Replica (cachedDesc (elected c) key))) as [Heq|Hne].
    { rewrite (Hsame Heq) in Hlt. lia. }
    destruct (decide (labels = (user, cluster))) as [->|Hlab].
    + by exists key, replica, user, cluster.
    + unfold counterValue in Hlt. rewrite (Hother labels Hlab) in Hlt. lia.
  - exfalso. by apply (Hkept _ (sameCache_runOp (OpCleanupTick t) c I)).
  - exfalso. by apply (Hkept _ (sameCache_runOp OpSnapshotElectedReplicas c I)).
  - exfalso. by apply (Hkept _ (sameCache_runOp OpUpdateUserReplicaGroupCount c I)).
  - simpl in Hlt. unfold CleanupHATrackerMetricsForUser in Hlt. simpl in Hlt.
    pose proof (counterValue_filter (fun kv : string * string * nat => kv.1.1 <> userID)
                  (electedReplicaChanges c) labels). lia.
Qed.

End WatchCounter.

(** * The properties on concrete runs *)

Section ConcreteRuns.

Import MemKV Runs.

(** A heartbeat of the elected replica inside the update timeout, and
    another replica inside it. *)
Lemma CheckReplica_fast_path_witness :
  (EnableHATracker (cfg (electedR1 None)) = true
   /\ elected (electedR1 None) !! makeKey "u1" "c1" = Some (mkReplicaDesc "R1" 0 0)
   /\ Sub (10 * Second) (timestamp_Time 0)
      < dur_add (UpdateTimeout (cfg (electedR1 None))) (updateTimeoutJitter (electedR1 None)))
  /\ (CheckReplica "u1" "c1" "R2" (10 * Second) (electedR1 None)).1
     = Some (ErrReplicasNotMatch (mkReplicasNotMatchError "R2" "R1"))
  /\ (CheckReplica "u1" "c1" "R2" (10 * Second) (electedR1 None)).2 = electedR1 None.
Proof.
  assert (H1 : EnableHATracker (cfg (electedR1 None)) = true) by reflexivity.
  assert (H2 : elected (electedR1 None) !! makeKey "u1" "c1" = Some (mkReplicaDesc "R1" 0 0))
    by (vm_compute; reflexivity).
  assert (H3 : Sub (10 * Second) (timestamp_Time (ReceivedAt (mkReplicaDesc "R1" 0 0)))
               < dur_add (UpdateTimeout (cfg (electedR1 None)))
                   (updateTimeoutJitter (electedR1 None)))
    by (vm_compute; reflexivity).
  split; [by repeat split|].
  destruct (CheckReplica_fast_path "u1" "c1" "R2" (10 * Second) (electedR1 None)
              (mkReplicaDesc "R1" 0 0) H1 H2 H3) as (_ & Hne & Hsame & _).
  split; [apply Hne; discriminate | exact Hsame].
Defined.

(** C2 as stated fails on a heartbeat of the elected replica inside the
    update timeout: the stored descriptor is live and the rejection
    condition does not hold, yet the mutator does not write the fresh
    descriptor; it writes nothing. *)
Lemma checkKVStore_mutator_heartbeat_skip :
  let c := electedR1 None in
  let desc := mkReplicaDesc "R1" 0 0 in
  let now := 5 * Second in
  DeletedAt desc = 0
  /\ ~ (Replica desc <> "R1"%string
        /\ Sub now (timestamp_Time (ReceivedAt desc)) < FailoverTimeout (cfg c))
  /\ checkKVStore_mutator c "R1" now 0 (KVDesc desc)
     <> (KVDesc (freshDesc "R1" now), true, None)
  /\ checkKVStore_mutator c "R1" now 0 (KVDesc desc) = (KVNil, false, None).
Proof.
  repeat split.
  - intros [Hne _]. by apply Hne.
  - vm_compute. discriminate.
Qed.

Lemma checkKVStore_mutator_cases_witness :
  let c := electedR1 None in
  let desc := mkReplicaDesc "R1" 0 0 in
  (DeletedAt desc = 0 /\ Replica desc <> "R2"%string
   /\ Sub (10 * Second) (timestamp_Time (ReceivedAt desc)) < FailoverTimeout (cfg c)
   /\ FailoverTimeout (cfg c) <= Sub (30 * Second) (timestamp_Time (ReceivedAt desc)))
  /\ checkKVStore_mutator c "R2" (10 * Second) 0 (KVDesc desc)
     = (KVNil, false, Some (ErrReplicasNotMatch (mkReplicasNotMatchError "R2" "R1")))
  /\ checkKVStore_mutator c "R2" (30 * Second) 0 (KVDesc desc)
     = (KVDesc (mkReplicaDesc "R2" 30000 0), true, None).
Proof.
  intros c desc.
  assert (Hlive : DeletedAt desc = 0) by reflexivity.
  assert (Hne : Replica desc <> "R2"%string) by discriminate.
  assert (Hin : Sub (10 * Second) (timestamp_Time (ReceivedAt desc)) < FailoverTimeout (cfg c))
    by (vm_compute; reflexivity).
  assert (Hout : FailoverTimeout (cfg c) <= Sub (30 * Second) (timestamp_Time (ReceivedAt desc)))
    by (vm_compute; discriminate).
  split; [by repeat split|]. split.
  - destruct (checkKVStore_mutator_cases c "R2" (10 * Second) 0 (KVDesc desc)) as (_ & Hrej & _).
    exact (Hrej desc eq_refl Hlive Hne Hin).
  - destruct (checkKVStore_mutator_cases c "R2" (30 * Second) 0 (KVDesc desc)) as (_ & _ & Hfresh).
    apply Hfresh. right; right. exists desc. split; [reflexivity|]. right; right. by split.
Defined.

(** C3.  The cleanup mutator tombstones a descriptor that was refreshed
    between the read and the CAS.  The sweep at 31 min has deadline 1 min;
    it read a descriptor last received at 0, which is stale; by CAS time
    the stored descriptor was received at 31 min, which is not stale; the
    mutator still sets [DeletedAt] on it, because its staleness test reads
    the descriptor of the earlier read. *)
Theorem cleanup_mutator_tombstones_refreshed :
  let now := 31 * Minute in
  let deadline := Add now (dur_neg deletionTimeout) in
  let desc := mkReplicaDesc "R1" 0 0 in
  let stored := mkReplicaDesc "R1" 1860000 0 in
  Before (timestamp_Time (ReceivedAt desc)) deadline = true
  /\ DeletedAt stored = 0
  /\ Before (timestamp_Time (ReceivedAt stored)) deadline = false
  /\ cleanup_mutator desc deadline now (KVDesc stored)
     = (KVDesc (mkReplicaDesc "R1" 1860000 1860000), true, None).
Proof. by vm_compute. Qed.

Lemma CheckReplica_group_cap_witness :
  let capped := electedR1 (Some (fun _ => 1)) in
  let free := electedR1 None in
  (EnableHATracker (cfg capped) = true
   /\ elected capped !! makeKey "u1" "c2" = None
   /\ Z.of_nat (size (groupsOf capped "u1")) + 1 > 1)
  /\ CheckReplica "u1" "c2" "R1" 0 capped
     = (Some (ErrTooManyReplicaGroups (mkTooManyReplicaGroupsError 1)), capped)
  /\ calls (CheckReplica "u1" "c2" "R1" 0 free).2 = [CallCAS (makeKey "u1" "c2")].
Proof.
  intros capped free.
  assert (Hen : EnableHATracker (cfg capped) = true) by reflexivity.
  assert (Hnone : elected capped !! makeKey "u1" "c2" = None) by (vm_compute; reflexivity).
  assert (Hover : Z.of_nat (size (groupsOf capped "u1")) + 1 > 1) by (vm_compute; reflexivity).
  split; [by repeat split|]. split.
  - destruct (CheckReplica_group_cap "u1" "c2" "R1" 0 capped Hen Hnone) as [Hcap _].
    exact (Hcap (fun _ => 1) 1 eq_refl eq_refl ltac:(lia) Hover).
  - destruct (CheckReplica_group_cap "u1" "c2" "R1" 0 free eq_refl Hnone) as [_ Hfree].
    destruct (Hfree (or_introl eq_refl)) as (_ & Hcalls & _). exact Hcalls.
Defined.

(** C5 as stated fails for a tenant whose name contains the separator:
    after the notification of a live descriptor under the key [a/b/g],
    [elected] holds the key of tenant [a/b] and group [g], and
    [replicaGroups] has no group for tenant [a/b] (the group [b/g] went to
    tenant [a]). *)
Lemma replicaGroups_misses_tenant_with_separator :
  let c0 := trackerWith scenarioCfg None ∅ ∅ emptyWorld in
  let c := watchEvents [("a/b/g"%string, mkReplicaDesc "R1" 0 0)] c0 in
  emptyCache c0
  /\ ~ ("g"%string ∈ groupsOf c "a/b" <-> is_Some (elected c !! makeKey "a/b" "g")).
Proof.
  split; [by split|].
  intros [_ Hback].
  assert (Hin : is_Some (elected (watchEvents [("a/b/g"%string, mkReplicaDesc "R1" 0 0)]
                                    (trackerWith scenarioCfg None ∅ ∅ emptyWorld))
                         !! makeKey "a/b" "g")) by (vm_compute; eauto).
  specialize (Hback Hin). revert Hback.
  replace (groupsOf _ _) with (∅ : gset string) by (by vm_compute).
  apply not_elem_of_empty.
Qed.

Lemma replicaGroups_mirror_elected_witness :
  let c0 := trackerWith scenarioCfg None ∅ ∅ emptyWorld in
  let c := watchEvents [("u1/c1"%string, mkReplicaDesc "R1" 0 0)] c0 in
  let tombstone := mkReplicaDesc "R1" 0 1915000 in
  (emptyCache c0 /\ hasSeparator "u1" = false
   /\ strings_Cut "u1/c1" "/" = ("u1"%string, "c1"%string, true)
   /\ 0 < DeletedAt tombstone
   /\ groupsOf c "u1" ⊆ {[ "c1"%string ]})
  /\ ("c1"%string ∈ groupsOf c "u1" <-> is_Some (elected c !! makeKey "u1" "c1"))
  /\ elected (watchCallback "u1/c1" tombstone c).2 !! "u1/c1"%string = None
  /\ replicaGroups (watchCallback "u1/c1" tombstone c).2 !! "u1"%string = None.
Proof.
  intros c0 c tombstone.
  assert (Hempty : emptyCache c0) by (by split).
  assert (Hcut : strings_Cut "u1/c1" "/" = ("u1"%string, "c1"%string, true)) by reflexivity.
  assert (Hdel : 0 < DeletedAt tombstone) by reflexivity.
  assert (Hsub : groupsOf c "u1" ⊆ {[ "c1"%string ]}).
  { replace (groupsOf c "u1") with ({[ "c1"%string ]} : gset string) by (by vm_compute).
    reflexivity. }
  split; [by repeat split|].
  destruct (replicaGroups_mirror_elected [("u1/c1"%string, mkReplicaDesc "R1" 0 0)]
              c0 Hempty) as (Hmirror & _ & _ & Htomb).
  split; [exact (Hmirror "u1"%string "c1"%string eq_refl)|].
  destruct (Htomb "u1/c1"%string tombstone "u1"%string "c1"%string Hcut Hdel)
    as (Hgone & _ & Htenant).
  split; [exact Hgone | exact (Htenant Hsub)].
Defined.

(** C6 as stated fails at the deadline itself: a tombstone whose
    [DeletedAt] equals [now - deletionTimeout] is not strictly before it,
    and the sweep deletes the key. *)
Lemma cleanup_deletes_tombstone_at_deadline :
  let now := 30 * Minute + Second in
  let w := mkMemWorld {[ "u1/c1"%string := mkReplicaDesc "R1" 0 1000 ]} now false in
  let c := trackerWith scenarioCfg None ∅ ∅ w in
  ~ (timestamp_Time 1000 < Add now (dur_neg deletionTimeout))
  /\ calls (cleanupTick now c)
     = [CallList EmptyString; CallGet "u1/c1"; CallDelete "u1/c1"]
  /\ mem_store (world (cleanupTick now c)) !! "u1/c1"%string = None.
Proof.
  split; [|split].
  - vm_compute. discriminate.
  - by vm_compute.
  - by vm_compute.
Qed.

Lemma cleanup_deletes_expired_tombstone_witness :
  let w := mkMemWorld {[ "u1/c1"%string := mkReplicaDesc "R1" 0 1000 ]} 0 false in
  let c := trackerWith scenarioCfg None ∅ ∅ w in
  (kv_Get "u1/c1" (world c) = ((KVDesc (mkReplicaDesc "R1" 0 1000), None), w)
   /\ 0 < DeletedAt (mkReplicaDesc "R1" 0 1000))
  /\ calls (cleanupKey (2 * Second) "u1/c1" c) = [CallGet "u1/c1"; CallDelete "u1/c1"]
  /\ calls (cleanupKey 0 "u1/c1" c) = [CallGet "u1/c1"].
Proof.
  intros w c.
  assert (Hget : kv_Get "u1/c1" (world c) = ((KVDesc (mkReplicaDesc "R1" 0 1000), None), w))
    by (by vm_compute).
  assert (Hdel : 0 < DeletedAt (mkReplicaDesc "R1" 0 1000)) by reflexivity.
  split; [by split|].
  destruct (@cleanup_deletes_expired_tombstone MemWorld _) as [Hkey _].
  split.
  - exact (Hkey (2 * Second) "u1/c1"%string c _ w Hget Hdel).
  - exact (Hkey 0 "u1/c1"%string c _ w Hget Hdel).
Defined.

(** C7 as stated fails where the sum overflows: with the update timeout
    at the largest [time.Duration], no jitter and a failover timeout of
    0, the failover timeout is below update timeout + jitter maximum +
    1s, yet [Validate] accepts the configuration, because the sum it
    compares with has wrapped to a negative duration. *)
Lemma Validate_accepts_wrapped_sum :
  let conf := mkHATrackerConfig true maxDuration 0 0 (mk_kv_Config "etcd") in
  FailoverTimeout conf < UpdateTimeout conf + UpdateTimeoutJitterMax conf + Second
  /\ dur_add (dur_add (UpdateTimeout conf) (UpdateTimeoutJitterMax conf)) Second < 0
  /\ Validate conf = None.
Proof. vm_compute. repeat split. Qed.

(** A failover timeout of 20s against 15s + 5s + 1s: [Validate] returns
    an error, and [NewHATracker] builds the tracker all the same. *)
Lemma Validate_error_iff_witness :
  let conf := mkHATrackerConfig true (15 * Second) (5 * Second) (20 * Second)
                (mk_kv_Config "consul") in
  (minDuration <= UpdateTimeout conf + UpdateTimeoutJitterMax conf + Second <= maxDuration
   /\ FailoverTimeout conf < UpdateTimeout conf + UpdateTimeoutJitterMax conf + Second
   /\ UpdateTimeoutJitterMax conf < 2 ^ 62
   /\ kv_NewClient (KVStore conf) = None)
  /\ Validate conf <> None
  /\ exists t, NewHATracker conf None 0 emptyWorld = Returns (Some t, None) /\ cfg t = conf.
Proof.
  intros conf.
  assert (Hr : minDuration <= UpdateTimeout conf + UpdateTimeoutJitterMax conf + Second
               <= maxDuration) by (vm_compute; split; discriminate).
  assert (Hlt : FailoverTimeout conf < UpdateTimeout conf + UpdateTimeoutJitterMax conf + Second)
    by (vm_compute; reflexivity).
  assert (Hsmall : UpdateTimeoutJitterMax conf < 2 ^ 62) by (vm_compute; reflexivity).
  assert (Hclient : kv_NewClient (KVStore conf) = None) by reflexivity.
  split; [by repeat split|].
  destruct Validate_error_iff as (_ & Hmath & Hbuilds).
  split.
  - apply (Hmath conf Hr). right; left. exact Hlt.
  - apply (Hbuilds MemWorld mem_client conf None 0 emptyWorld Hsmall). by right.
Defined.

Lemma watchCallback_counts_replica_change_witness :
  let c := electedR1 None in
  let observed := mkReplicaDesc "R2" 55000 0 in
  (strings_Cut "u1/c1" "/" = ("u1"%string, "c1"%string, true)
   /\ ~ 0 < DeletedAt observed
   /\ Replica observed <> Replica (cachedDesc (elected c) "u1/c1"))
  /\ counterValue (electedReplicaChanges (watchCallback "u1/c1" observed c).2)
       ("u1"%string, "c1"%string)
     = S (counterValue (electedReplicaChanges c) ("u1"%string, "c1"%string)).
Proof.
  intros c observed.
  assert (Hcut : strings_Cut "u1/c1" "/" = ("u1"%string, "c1"%string, true)) by reflexivity.
  assert (Hlive : ~ 0 < DeletedAt observed) by (vm_compute; discriminate).
  assert (Hne : Replica observed <> Replica (cachedDesc (elected c) "u1/c1"))
    by (vm_compute; discriminate).
  split; [by repeat split|].
  destruct (@watchCallback_counts_replica_change MemWorld _) as [Hlive_case _].
  destruct (Hlive_case "u1/c1"%string observed c "u1"%string "c1"%string Hcut Hlive)
    as [Hinc _].
  exact (Hinc Hne).
Defined.

(** The end-to-end scenarios of the specification: election from empty,
    heartbeat skip, rejection of the other replica, heartbeat refresh,
    failover after silence, the group cap. *)
Example scenarios_admission :
  run1.1 = None
  /\ mem_store (world run1.2) !! "u1/c1"%string = Some (mkReplicaDesc "R1" 0 0)
  /\ run2.1 = None /\ calls run2.2 = calls run1.2
  /\ run3.1 = Some (ErrReplicasNotMatch (mkReplicasNotMatchError "R2" "R1"))
  /\ world run3.2 = world run1.2
  /\ run4.1 = None
  /\ mem_store (world run4.2) !! "u1/c1"%string = Some (mkReplicaDesc "R1" 20000 0)
  /\ run5.1 = None
  /\ mem_store (world run5.2) !! "u1/c1"%string = Some (mkReplicaDesc "R2" 55000 0)
  /\ counterValue (electedReplicaChanges (deliver "u1/c1" run5.2)) ("u1"%string, "c1"%string)
     = S (counterValue (electedReplicaChanges run5.2) ("u1"%string, "c1"%string))
  /\ run6.1 = Some (ErrTooManyReplicaGroups (mkTooManyReplicaGroupsError 1)).
Proof. by vm_compute. Qed.

(** Two-phase deletion: the first sweep marks the stale descriptor, the
    watch drops it from the cache, the second sweep deletes the key. *)
Example scenario_two_phase_deletion :
  mem_store (world sweep1) !! "u1/c1"%string = Some (mkReplicaDesc "R2" 55000 1915000)
  /\ elected sweep1 !! "u1/c1"%string = None
  /\ replicaGroups sweep1 !! "u1"%string = None
  /\ mem_store (world sweep2) !! "u1/c1"%string = None.
Proof. by vm_compute. Qed.

End ConcreteRuns.

(** * Further properties of the tracker *)

(** ** Time stamps *)

Lemma timestamp_FromTime_floor (t : Time) :
  int64_ms t -> timestamp_FromTime t = t / Millisecond.
Proof.
  unfold int64_ms, timestamp_FromTime, UnixSeconds, NanosecondOf. intros Hr.
  rewrite wrap64_idemp_add.
  assert (Hfloor : t / Second * 1000 + Z.quot (t mod Second) Millisecond = t / Millisecond).
  { unfold Second, Millisecond.
    pose proof (Z.mod_pos_bound t 1000000000 ltac:(lia)) as Hm.
    rewrite Z.quot_div_nonneg by lia.
    rewrite (Z.div_mod t 1000000000) at 3 by lia.
    replace (1000000000 * (t / 1000000000) + t mod 1000000000)
      with (t / 1000000000 * 1000 * 1000000 + t mod 1000000000) by lia.
    rewrite Z.div_add_l by lia. reflexivity. }
  rewrite Hfloor. by apply wrap64_in_range.
Qed.

(** A stamp taken at [t] lies at most one millisecond before [t]. *)
Lemma timestamp_age_of_stamp (t : Time) :
  int64_ms t ->
  0 <= Sub t (timestamp_Time (timestamp_FromTime t)) < Millisecond.
Proof.
  intros Hr. rewrite (timestamp_FromTime_floor t Hr), timestamp_Time_ms.
  unfold Sub, minDuration, maxDuration, Millisecond in *.
  pose proof (Z.div_mod t 1000000 ltac:(lia)) as Hd.
  pose proof (Z.mod_pos_bound t 1000000 ltac:(lia)) as Hm.
  assert (Hdiff : t - t / 1000000 * 1000000 = t mod 1000000) by lia.
  rewrite Hdiff.
  destruct (Z.ltb_spec (t mod 1000000) (- 2 ^ 63)); [lia|].
  destruct (Z.ltb_spec (2 ^ 63 - 1) (t mod 1000000)); lia.
Qed.

(** ** The admission check, further *)

Section AdmissionFurther.

Context {W : Type} `{!KVClient W}.

Implicit Types c : HATracker W.

(** X1.  With HA tracking disabled the constructor asks for no client
    (it succeeds even where [kv.NewClient] would fail), and the tracker it
    returns accepts every sample without a client call or any change of
    state.  This is so for a jitter maximum below [2 ^ 62] nanoseconds;
    from there on, for every [int64] value, the constructor panics in
    [rand.Int63n], which it calls before it looks at [EnableHATracker]. *)
Theorem disabled_tracker_accepts_everything conf limits r (w : W) :
  EnableHATracker conf = false ->
  (UpdateTimeoutJitterMax conf < 2 ^ 62 ->
   exists t,
     NewHATracker conf limits r w = Returns (Some t, None)
     /\ forall userID replicaGroup replica now,
         CheckReplica userID replicaGroup replica now t = (None, t))
  /\ (2 ^ 62 <= UpdateTimeoutJitterMax conf <= maxDuration ->
      NewHATracker conf limits r w = Panics).
Proof.
  intros Hoff. split.
  - intros Hsmall.
    destruct (NewHATracker_returns conf limits r w Hsmall) as (jitter & _ & ->).
    rewrite Hoff. eexists. split; [reflexivity|].
    intros. unfold CheckReplica. simpl. by rewrite Hoff.
  - apply NewHATracker_panics.
Qed.

(** X2.  [CheckReplica] makes at most one client call, a [CAS] on the key of
    the tenant and group; the CAS counter of that tenant and group goes up
    by one exactly when the call is made, whatever the call returns; the
    sweep counters never move. *)
Theorem CheckReplica_calls_and_counter userID replicaGroup replica now c :
  let c' := (CheckReplica userID replicaGroup replica now c).2 in
  ((calls c' = calls c /\ kvCASCalls c' = kvCASCalls c)
   \/ (calls c' = calls c ++ [CallCAS (makeKey userID replicaGroup)]
       /\ kvCASCalls c' = CounterVec_Inc (userID, replicaGroup) (kvCASCalls c)))
  /\ cleanupOutcomes c' = cleanupOutcomes c
  /\ cleanupRuns c' = cleanupRuns c.
Proof.
  intros c'. subst c'.
  destruct (CheckReplica_slow_or_same userID replicaGroup replica now c) as [-> | ->].
  - split; [by left | by split].
  - unfold slowPath, checkKVStore, callClient.
    destruct (kv_CAS _ _ (world c)) as [err w']. simpl.
    split; [by right | by split].
Qed.

(** X3.  The group cap is for new groups only: a group that is in the cache,
    however stale its entry and however many groups the tenant has, is
    never turned away by the cap; once its entry is as old as the update
    timeout plus jitter the call goes to the slow path. *)
Theorem CheckReplica_known_group_not_capped userID replicaGroup replica now c entry :
  EnableHATracker (cfg c) = true ->
  elected c !! makeKey userID replicaGroup = Some entry ->
  dur_add (UpdateTimeout (cfg c)) (updateTimeoutJitter c)
    <= Sub now (timestamp_Time (ReceivedAt entry)) ->
  CheckReplica userID replicaGroup replica now c
  = slowPath userID replicaGroup replica now c.
Proof.
  intros Hen Hentry Hstale. unfold CheckReplica, slowPath.
  rewrite Hen, Hentry. cbn.
  apply Z.ltb_ge in Hstale. by rewrite Hstale.
Qed.

(** X4.  A configuration that [Validate] accepts gives every tracker that
    [NewHATracker] builds from it a jitter within the configured maximum
    and an update window (update timeout plus the drawn jitter) that ends
    at least one second before the failover timeout, whatever
    [rand.Int63n] draws; the sums are assumed to fit in [int64]. *)
Theorem valid_config_update_window conf limits r (w : W) t e :
  Validate conf = None ->
  minDuration <= UpdateTimeout conf - UpdateTimeoutJitterMax conf ->
  UpdateTimeout conf + UpdateTimeoutJitterMax conf + Second <= maxDuration ->
  NewHATracker conf limits r w = Returns (Some t, e) ->
  cfg t = conf
  /\ - UpdateTimeoutJitterMax conf <= updateTimeoutJitter t <= UpdateTimeoutJitterMax conf
  /\ dur_add (UpdateTimeout conf) (updateTimeoutJitter t) + Second <= FailoverTimeout conf.
Proof.
  intros Hvalid Hlo Hhi Hnew.
  unfold Validate in Hvalid.
  destruct (Z.ltb_spec (UpdateTimeoutJitterMax conf) 0) as [|Hjm]; [discriminate|].
  destruct (Z.ltb_spec (FailoverTimeout conf)
              (dur_add (dur_add (UpdateTimeout conf) (UpdateTimeoutJitterMax conf)) Second))
    as [|Hft]; [discriminate|].
  clear Hvalid.
  rewrite dur_add3_in_range in Hft by (unfold minDuration, maxDuration, Second in *; lia).
  destruct (Z.lt_ge_cases (UpdateTimeoutJitterMax conf) (2 ^ 62)) as [Hsmall|Hlarge].
  - destruct (NewHATracker_returns conf limits r w Hsmall) as (jitter & Hj & Hbuilt).
    specialize (Hj Hjm). rewrite Hbuilt in Hnew.
    assert (Ht : t = mkHATracker conf jitter limits ∅ ∅ ∅ ∅ ∅ ∅ 0%nat 0%nat 0%nat 0%nat w []).
    { destruct (EnableHATracker conf); [destruct (kv_NewClient (KVStore conf))|];
        by inversion Hnew. }
    subst t. simpl. split; [reflexivity|]. split; [exact Hj|].
    unfold dur_add.
    rewrite wrap64_in_range by (unfold minDuration, maxDuration, Second in *; lia). lia.
  - rewrite NewHATracker_panics in Hnew; [discriminate|].
    unfold minDuration, maxDuration, Second in *. lia.
Qed.

(** X5.  No take-over while the heartbeat is fresh.  When the update window
    does not outlast the failover timeout, a stored descriptor on which
    the mutator does nothing for one replica makes the mutator reject
    every other replica, naming the first as the elected one. *)
Theorem no_takeover_while_fresh c elected_ other now wallNow wallNow' in_ :
  dur_add (UpdateTimeout (cfg c)) (updateTimeoutJitter c) <= FailoverTimeout (cfg c) ->
  other <> elected_ ->
  checkKVStore_mutator c elected_ now wallNow in_ = (KVNil, false, None) ->
  checkKVStore_mutator c other now wallNow' in_
  = (KVNil, false, Some (ErrReplicasNotMatch (mkReplicasNotMatchError other elected_))).
Proof.
  intros Hwin Hne. unfold checkKVStore_mutator.
  destruct in_ as [|desc|]; try discriminate.
  destruct (DeletedAt desc =? 0); [|discriminate].
  destruct (String.eqb_spec (Replica desc) elected_) as [Heq|]; simpl; cycle 1.
  { destruct (_ <? _); discriminate. }
  destruct (Z.ltb_spec (Sub now (timestamp_Time (ReceivedAt desc)))
              (dur_add (UpdateTimeout (cfg c)) (updateTimeoutJitter c))) as [Hage|];
    [|discriminate].
  intros _.
  destruct (String.eqb_spec (Replica desc) other) as [Heq'|_]; [congruence|]. simpl.
  assert ((Sub now (timestamp_Time (ReceivedAt desc)) <? FailoverTimeout (cfg c)) = true) as ->
    by (apply Z.ltb_lt; lia).
  by rewrite Heq.
Qed.

(** X6.  The slow path settles in one write.  When the mutator has written a
    descriptor for a replica at [now], running it again on that
    descriptor at the same [now] (as a CAS retry does) changes nothing
    for the same replica and rejects any other replica, provided the
    update window and the failover timeout are at least one millisecond. *)
Theorem checkKVStore_mutator_settles c replica now wallNow wallNow' in_ written retry :
  int64_ms now ->
  Millisecond <= dur_add (UpdateTimeout (cfg c)) (updateTimeoutJitter c) ->
  Millisecond <= FailoverTimeout (cfg c) ->
  checkKVStore_mutator c replica now wallNow in_ = (KVDesc written, retry, None) ->
  checkKVStore_mutator c replica now wallNow' (KVDesc written) = (KVNil, false, None)
  /\ forall other, other <> replica ->
       checkKVStore_mutator c other now wallNow' (KVDesc written)
       = (KVNil, false, Some (ErrReplicasNotMatch (mkReplicasNotMatchError other replica))).
Proof.
  intros Hnow Hwin Hft Hwrote.
  assert (Hw : written = mkReplicaDesc replica (timestamp_FromTime now) 0).
  { unfold checkKVStore_mutator in Hwrote.
    destruct in_ as [|desc|]; try by inversion Hwrote.
    destruct (DeletedAt desc =? 0); [|by inversion Hwrote].
    destruct (_ && _); [discriminate|].
    destruct (_ && _); [discriminate|]. by inversion Hwrote. }
  subst written. pose proof (timestamp_age_of_stamp now Hnow) as Hage.
  unfold checkKVStore_mutator. simpl. split.
  - rewrite String.eqb_refl. simpl.
    assert ((Sub now (timestamp_Time (timestamp_FromTime now))
             <? dur_add (UpdateTimeout (cfg c)) (updateTimeoutJitter c)) = true) as ->
      by (apply Z.ltb_lt; lia).
    reflexivity.
  - intros other Hne.
    destruct (String.eqb_spec replica other) as [|_]; [congruence|]. simpl.
    assert ((Sub now (timestamp_Time (timestamp_FromTime now)) <? FailoverTimeout (cfg c)) = true)
      as -> by (apply Z.ltb_lt; lia).
    reflexivity.
Qed.

End AdmissionFurther.

(** X7.  [CheckReplica] tells a deduplication from a failure by
    [errors.Is(err, ReplicasNotMatchError{})]: the test holds for the
    [ReplicasNotMatchError]s, by value or through a pointer, and for no
    other error of the tracker: not for nil, the other typed error, the
    validation errors, or a client error (taken to wrap nothing). *)
Theorem errors_Is_ReplicasNotMatch_target (err : option error) :
  errors_Is err (Some (ErrReplicasNotMatch (mkReplicasNotMatchError EmptyString EmptyString)))
  = true
  <-> exists p e, err = Some (ReplicasNotMatch_as p e).
Proof.
  split.
  - destruct err as [e|]; [|discriminate].
    destruct e as [e|p e|e|p e| | | |]; cbn; intros Hq;
      [ by exists None, e | by exists (Some p), e | .. ];
      exfalso; apply orb_true_iff in Hq as [Hq|Hq];
      solve [ apply bool_decide_eq_true in Hq; discriminate | discriminate ].
  - intros ([p|] & e & ->); cbn; [reflexivity | apply orb_true_r].
Qed.

(** ** The watch callback, further *)

Section WatchFurther.

Context {W : Type} `{!KVClient W}.

Implicit Types c : HATracker W.

Lemma HATracker_eq c c' :
  elected c' = elected c ->
  replicaGroups c' = replicaGroups c ->
  electedReplicaChanges c' = electedReplicaChanges c ->
  electedReplicaTimestamp c' = electedReplicaTimestamp c ->
  sameOutsideWatch c c' ->
  c' = c.
Proof.
  destruct c, c'. unfold sameOutsideWatch. simpl.
  intros -> -> -> -> (-> & -> & -> & -> & -> & -> & -> & -> & -> & -> & ->). reflexivity.
Qed.

Lemma watchCallback_fields_tombstone key replica c user cluster :
  strings_Cut key "/" = (user, cluster, true) ->
  0 < DeletedAt replica ->
  let c' := (watchCallback key replica c).2 in
  elected c' = delete key (elected c)
  /\ replicaGroups c' = dropGroup (replicaGroups c) user cluster
  /\ electedReplicaChanges c' = delete (user, cluster) (electedReplicaChanges c)
  /\ electedReplicaTimestamp c' = delete (user, cluster) (electedReplicaTimestamp c)
  /\ sameOutsideWatch c c'.
Proof.
  intros Hcut Hdel. unfold watchCallback, dropGroup, sameOutsideWatch. rewrite Hcut. simpl.
  apply Z.ltb_lt in Hdel. rewrite Hdel. simpl.
  destruct (replicaGroups c !! user) as [userClusters|]; simpl; [|by repeat split].
  destruct (size (userClusters ∖ {[cluster]}) =? 0)%nat; by repeat split.
Qed.

Lemma watchCallback_fields_live key replica c user cluster :
  strings_Cut key "/" = (user, cluster, true) ->
  ~ 0 < DeletedAt replica ->
  let c' := (watchCallback key replica c).2 in
  elected c' = <[key := replica]> (elected c)
  /\ replicaGroups c'
     = (if decide (is_Some (elected c !! key)) then replicaGroups c
        else <[user := groupsOf c user ∪ {[cluster]}]> (replicaGroups c))
  /\ electedReplicaChanges c'
     = (if decide (Replica replica = Replica (cachedDesc (elected c) key))
        then electedReplicaChanges c
        else CounterVec_Inc (user, cluster) (electedReplicaChanges c))
  /\ electedReplicaTimestamp c'
     = <[(user, cluster) := gaugeOf replica]> (electedReplicaTimestamp c)
  /\ sameOutsideWatch c c'.
Proof.
  intros Hcut Hlive. unfold watchCallback, sameOutsideWatch, cachedDesc, groupsOf, gaugeOf.
  rewrite Hcut. simpl.
  assert ((0 <? DeletedAt replica) = false) as -> by (apply Z.ltb_ge; lia).
  destruct (decide (is_Some (elected c !! key))) as [Hex|Hex];
    [ rewrite (bool_decide_eq_true_2 _ Hex) | rewrite (bool_decide_eq_false_2 _ Hex) ];
    (destruct (decide (Replica replica
                       = Replica (default zeroReplicaDesc (elected c !! key)))) as [Heq|Hne];
     [ pose proof (proj2 (String.eqb_eq _ _) Heq) as Hb
     | pose proof (proj2 (String.eqb_neq _ _) Hne) as Hb ];
     rewrite Hb; simpl; by repeat split).
Qed.

Lemma dropGroup_idemp (groups : gmap string (gset string)) (user cluster : string) :
  dropGroup (dropGroup groups user cluster) user cluster = dropGroup groups user cluster.
Proof.
  unfold dropGroup.
  destruct (groups !! user) as [userClusters|] eqn:Hu; [|by rewrite Hu].
  destruct (Nat.eqb_spec (size (userClusters ∖ {[cluster]})) 0) as [Hz|Hnz].
  - by rewrite lookup_delete_eq.
  - rewrite lookup_insert_eq.
    assert (Hsame : userClusters ∖ {[cluster]} ∖ {[cluster]} = userClusters ∖ {[cluster]}).
    { apply set_eq. intros x. rewrite !elem_of_difference. tauto. }
    rewrite Hsame.
    destruct (Nat.eqb_spec (size (userClusters ∖ {[cluster]})) 0); [contradiction|].
    apply insert_insert_eq.
Qed.

(** X8.  Replaying a watch notification changes nothing: the tracker after
    the second delivery of the same key and value is the tracker after the
    first, the change counter and the timestamp gauge included.  (The
    histogram of propagation times, which observes every delivery, is not
    part of the tracker state here.) *)
Theorem watchCallback_replay key replica c :
  (watchCallback key replica (watchCallback key replica c).2).2
  = (watchCallback key replica c).2.
Proof.
  destruct (strings_Cut key "/") as [[user cluster] found] eqn:Hcut.
  destruct found; cycle 1.
  { rewrite !watchCallback_ignores_key by (by rewrite Hcut). reflexivity. }
  set (c1 := (watchCallback key replica c).2).
  destruct (Z.lt_ge_cases 0 (DeletedAt replica)) as [Hdel|Hnd].
  - destruct (watchCallback_fields_tombstone key replica c user cluster Hcut Hdel)
      as (He & Hg & Hc & Ht & Hrest).
    destruct (watchCallback_fields_tombstone key replica c1 user cluster Hcut Hdel)
      as (He' & Hg' & Hc' & Ht' & Hrest').
    fold c1 in He, Hg, Hc, Ht, Hrest.
    apply HATracker_eq; [| | | |exact Hrest'].
    + rewrite He', He. apply delete_delete_eq.
    + rewrite Hg', Hg. apply dropGroup_idemp.
    + rewrite Hc', Hc. apply delete_delete_eq.
    + rewrite Ht', Ht. apply delete_delete_eq.
  - assert (Hlive : ~ 0 < DeletedAt replica) by lia.
    destruct (watchCallback_fields_live key replica c user cluster Hcut Hlive)
      as (He & Hg & Hc & Ht & Hrest).
    destruct (watchCallback_fields_live key replica c1 user cluster Hcut Hlive)
      as (He' & Hg' & Hc' & Ht' & Hrest').
    fold c1 in He, Hg, Hc, Ht, Hrest.
    assert (Hin : elected c1 !! key = Some replica) by (rewrite He; apply lookup_insert_eq).
    apply HATracker_eq; [| | | |exact Hrest'].
    + rewrite He', He. apply insert_insert_eq.
    + rewrite Hg'. rewrite decide_True by (rewrite Hin; eauto). reflexivity.
    + rewrite Hc'. unfold cachedDesc. rewrite Hin. simpl.
      by rewrite decide_True by reflexivity.
    + rewrite Ht', Ht. apply insert_insert_eq.
Qed.

Lemma watchCallback_keeps_separated key replica c :
  electedKeysSeparated c /\ gaugeMirrorsElected c ->
  electedKeysSeparated (watchCallback key replica c).2
  /\ gaugeMirrorsElected (watchCallback key replica c).2.
Proof.
  intros [Hsep Hgauge].
  destruct (strings_Cut key "/") as [[user cluster] found] eqn:Hcut.
  destruct found; cycle 1.
  { rewrite watchCallback_ignores_key by (by rewrite Hcut). auto. }
  destruct (strings_Cut_found _ _ _ Hcut) as [Hkey Huser].
  assert (Hkeysep : hasSeparator key = true) by (unfold hasSeparator; by rewrite Hcut).
  destruct (Z.lt_ge_cases 0 (DeletedAt replica)) as [Hdel|Hnd].
  - destruct (watchCallback_fields_tombstone key replica c user cluster Hcut Hdel)
      as (He & _ & _ & Ht & _).
    split.
    + intros k. rewrite He, lookup_delete_is_Some. intros [_ Hk]. by apply Hsep.
    + intros u g. rewrite Ht, He.
      destruct (decide ((user, cluster) = (u, g))) as [[= <- <-]|Hne].
      * rewrite lookup_delete_eq, Huser, <- Hkey. by rewrite lookup_delete_eq.
      * rewrite lookup_delete_ne by exact Hne. rewrite (Hgauge u g).
        destruct (hasSeparator u) eqn:Hu; [reflexivity|].
        rewrite lookup_delete_ne; [reflexivity|].
        intros Heq. rewrite Hkey in Heq.
        destruct (makeKey_inj _ _ _ _ Huser Hu Heq) as [-> ->]. by apply Hne.
  - assert (Hlive : ~ 0 < DeletedAt replica) by lia.
    destruct (watchCallback_fields_live key replica c user cluster Hcut Hlive)
      as (He & _ & _ & Ht & _).
    split.
    + intros k. rewrite He, lookup_insert_is_Some. intros [<- | [_ Hk]]; [exact Hkeysep|].
      by apply Hsep.
    + intros u g. rewrite Ht, He.
      destruct (decide ((user, cluster) = (u, g))) as [[= <- <-]|Hne].
      * rewrite lookup_insert_eq, Huser, <- Hkey. by rewrite lookup_insert_eq.
      * rewrite lookup_insert_ne by exact Hne. rewrite (Hgauge u g).
        destruct (hasSeparator u) eqn:Hu; [reflexivity|].
        rewrite lookup_insert_ne; [reflexivity|].
        intros Heq. rewrite Hkey in Heq.
        destruct (makeKey_inj _ _ _ _ Huser Hu Heq) as [-> ->]. by apply Hne.
Qed.

(** X9.  Keys without the separator never enter the cache, and the timestamp
    gauge follows the cache: after any notifications delivered to a
    tracker with an empty cache and no gauge series, every cached key has
    the separator, and the gauge has a series exactly for the cached keys,
    holding the seconds of the cached [ReceivedAt]. *)
Theorem watch_keeps_keys_and_gauge events c0 :
  emptyCache c0 ->
  electedReplicaTimestamp c0 = ∅ ->
  let c := watchEvents events c0 in
  (forall key, is_Some (elected c !! key) -> hasSeparator key = true)
  /\ (forall key desc user cluster,
      elected c !! key = Some desc ->
      strings_Cut key "/" = (user, cluster, true) ->
      electedReplicaTimestamp c !! (user, cluster) = Some (Z.quot (ReceivedAt desc) 1000))
  /\ (forall user cluster,
      is_Some (electedReplicaTimestamp c !! (user, cluster)) ->
      is_Some (elected c !! makeKey user cluster)).
Proof.
  intros [He _] Hts c.
  assert (Hinv : electedKeysSeparated c /\ gaugeMirrorsElected c).
  { subst c. induction events as [|[key replica] events IH] using rev_ind.
    - simpl. split.
      + intros k. rewrite He, lookup_empty. by intros [? ?].
      + intros u g. rewrite Hts, He, !lookup_empty. by destruct (hasSeparator u).
    - rewrite watchEvents_snoc. by apply watchCallback_keeps_separated. }
  destruct Hinv as [Hsep Hgauge]. split; [exact Hsep|]. split.
  - intros key desc user cluster Hk Hcut.
    destruct (strings_Cut_found _ _ _ Hcut) as [-> Huser].
    by rewrite (Hgauge user cluster), Huser, Hk.
  - intros user cluster. rewrite (Hgauge user cluster).
    destruct (hasSeparator user); [by intros [? ?]|].
    destruct (elected c !! makeKey user cluster); [eauto | by intros [? ?]].
Qed.

End WatchFurther.

(** ** Metric upkeep *)

Section MetricUpkeep.

Context {W : Type} `{!KVClient W}.

Implicit Types c : HATracker W.

(** X10.  The refresh of the group-count gauge sets, for every tenant that has
    groups in the cache, the gauge to the number of its groups, and leaves
    the gauge of any other tenant as it was: the series of a tenant whose
    last group has gone keeps its last value.  In a cache fed by watch
    notifications a gauge set by the refresh is at least one. *)
Theorem updateUserReplicaGroupCount_gauge :
  (forall c user,
      userReplicaGroupCount (updateUserReplicaGroupCount c) !! user
      = match replicaGroups c !! user with
        | Some groups => Some (size groups)
        | None => userReplicaGroupCount c !! user
        end)
  /\ (forall events c0 user groups,
      emptyCache c0 ->
      replicaGroups (watchEvents events c0) !! user = Some groups ->
      userReplicaGroupCount (updateUserReplicaGroupCount (watchEvents events c0)) !! user
      = Some (size groups)
      /\ (0 < size groups)%nat).
Proof.
  assert (Hlookup : forall c user,
      userReplicaGroupCount (updateUserReplicaGroupCount c) !! user
      = match replicaGroups c !! user with
        | Some groups => Some (size groups)
        | None => userReplicaGroupCount c !! user
        end).
  { intros c user. unfold updateUserReplicaGroupCount. simpl.
    rewrite lookup_union, lookup_fmap.
    destruct (replicaGroups c !! user) as [groups|]; simpl.
    - by destruct (userReplicaGroupCount c !! user).
    - by destruct (userReplicaGroupCount c !! user). }
  split; [exact Hlookup|].
  intros events c0 user groups Hempty Hgroups.
  rewrite Hlookup, Hgroups. split; [reflexivity|].
  destruct (watchEvents_invariant events c0 Hempty) as (_ & _ & Hne).
  specialize (Hne user). rewrite Hgroups in Hne.
  destruct (Nat.eq_dec (size groups) 0%nat) as [Hz|]; [|lia].
  apply size_empty_iff in Hz. apply leibniz_equiv in Hz. congruence.
Qed.

(** The metric upkeep for a departing tenant removes every series of
    that tenant from the change counter, the timestamp gauge, the CAS
    counter and the group-count gauge, and keeps the series of every other
    tenant. *)
Lemma CleanupHATrackerMetricsForUser_series userID c :
  let c' := CleanupHATrackerMetricsForUser userID c in
  (forall user cluster,
      electedReplicaChanges c' !! (user, cluster)
      = (if decide (user = userID) then None else electedReplicaChanges c !! (user, cluster))
      /\ electedReplicaTimestamp c' !! (user, cluster)
         = (if decide (user = userID) then None
            else electedReplicaTimestamp c !! (user, cluster))
      /\ kvCASCalls c' !! (user, cluster)
         = (if decide (user = userID) then None else kvCASCalls c !! (user, cluster)))
  /\ (forall user,
      userReplicaGroupCount c' !! user
      = if decide (user = userID) then None else userReplicaGroupCount c !! user).
Proof.
  assert (Hkeep : forall (V : Type) (m : gmap (string * string) V) user cluster,
      filter (fun kv : string * string * V => kv.1.1 <> userID) m !! (user, cluster)
      = if decide (user = userID) then None else m !! (user, cluster)).
  { intros V m user cluster. apply option_eq. intros x.
    rewrite map_lookup_filter_Some. simpl.
    destruct (decide (user = userID)) as [->|Hne]; [|tauto].
    split; [intros [_ ?]; contradiction | discriminate]. }
  intros c'. subst c'. unfold CleanupHATrackerMetricsForUser. simpl. split.
  - intros user cluster. by rewrite !Hkeep.
  - intros user. destruct (decide (user = userID)) as [->|Hne].
    + apply lookup_delete_eq.
    + by apply lookup_delete_ne.
Qed.

End MetricUpkeep.

(** ** The cleanup sweep, further *)

Section CleanupFurther.

Context {W : Type} `{!KVClient W}.

Implicit Types c : HATracker W.

Lemma cleanup_mutator_written desc deadline wallNow in_ marked retry :
  cleanup_mutator desc deadline wallNow in_ = (KVDesc marked, retry, None) ->
  DeletedAt marked = timestamp_FromTime wallNow.
Proof.
  unfold cleanup_mutator. destruct in_ as [|d|]; try discriminate.
  destruct (_ || _); [discriminate|].
  intros [= <- _]. reflexivity.
Qed.

(** X11.  The cleanup mutator never fails; it writes nothing under a key that
    has no descriptor and nothing over a tombstone; and what it writes is
    the stored descriptor with [DeletedAt] set to the wall time, replica
    and [ReceivedAt] untouched. *)
Theorem cleanup_mutator_only_marks desc deadline wallNow in_ :
  (cleanup_mutator desc deadline wallNow in_).2 = None
  /\ ((cleanup_mutator desc deadline wallNow in_).1 = (KVNil, false)
      \/ exists d,
          in_ = KVDesc d /\ ~ 0 < DeletedAt d
          /\ (cleanup_mutator desc deadline wallNow in_).1
             = (KVDesc (mkReplicaDesc (Replica d) (ReceivedAt d) (timestamp_FromTime wallNow)),
                true)).
Proof.
  unfold cleanup_mutator. destruct in_ as [|d|]; simpl; [by split; [|left] | | by split; [|left]].
  destruct (Z.ltb_spec 0 (DeletedAt d)) as [?|Hlive]; simpl; [by split; [|left]|].
  destruct (negb _); simpl; [by split; [|left]|].
  split; [reflexivity|]. right. exists d. repeat split. lia.
Qed.

(** X12.  A descriptor marked by the cleanup mutator at a wall time of at
    least one millisecond past the epoch is a tombstone to every part of
    the tracker: the slow-path mutator writes over it for any replica (a
    replica that comes back is elected at once), a later cleanup mutator
    leaves it alone, and the watch callback drops its key from the
    cache. *)
Theorem marked_descriptor_is_tombstone desc deadline wallNow in_ marked retry :
  int64_ms wallNow ->
  Millisecond <= wallNow ->
  cleanup_mutator desc deadline wallNow in_ = (KVDesc marked, retry, None) ->
  0 < DeletedAt marked
  /\ (forall c replica now wall,
      checkKVStore_mutator c replica now wall (KVDesc marked)
      = (KVDesc (freshDesc replica now), true, None))
  /\ (forall desc' deadline' wall',
      cleanup_mutator desc' deadline' wall' (KVDesc marked) = (KVNil, false, None))
  /\ (forall c key user cluster,
      strings_Cut key "/" = (user, cluster, true) ->
      elected (watchCallback key marked c).2 !! key = None).
Proof.
  intros Hr Hms Hmarked.
  assert (Hdel : 0 < DeletedAt marked).
  { rewrite (cleanup_mutator_written _ _ _ _ _ _ Hmarked), (timestamp_FromTime_floor _ Hr).
    unfold Millisecond in *. apply (Z.div_str_pos wallNow 1000000). lia. }
  split; [exact Hdel|]. split; [|split].
  - intros c replica now wall. unfold checkKVStore_mutator, freshDesc.
    destruct (Z.eqb_spec (DeletedAt marked) 0); [lia | reflexivity].
  - intros desc' deadline' wall'. unfold cleanup_mutator.
    apply Z.ltb_lt in Hdel. by rewrite Hdel.
  - intros c key user cluster Hcut.
    destruct (watchCallback_fields_tombstone key marked c user cluster Hcut Hdel) as [-> _].
    apply lookup_delete_eq.
Qed.

(** X13.  What the sweep does with a key depends on what [Get] returns for it:
    nothing when [Get] fails or returns no descriptor; for a live
    descriptor ([DeletedAt] 0) a [CAS] exactly when its [ReceivedAt] is
    strictly before the deadline, and never a [Delete]; nothing at all for
    a descriptor whose [DeletedAt] is negative, which the sweep neither
    marks nor deletes. *)
Theorem cleanupKey_live_descriptor deadline key c val err w' :
  kv_Get key (world c) = ((val, err), w') ->
  let after := calls (cleanupKey deadline key c) in
  ((err <> None \/ val = KVNil \/ val = KVOther) ->
     after = calls c ++ [CallGet key]
     /\ cleanupOutcomes (cleanupKey deadline key c) = cleanupOutcomes c)
  /\ (forall desc,
      err = None -> val = KVDesc desc -> DeletedAt desc = 0 ->
      after = calls c ++ [CallGet key]
              ++ (if Before (timestamp_Time (ReceivedAt desc)) deadline
                  then [CallCAS key] else []))
  /\ (forall desc,
      err = None -> val = KVDesc desc -> DeletedAt desc < 0 ->
      after = calls c ++ [CallGet key]
      /\ cleanupOutcomes (cleanupKey deadline key c) = cleanupOutcomes c).
Proof.
  intros Hget after. subst after. unfold cleanupKey.
  destruct (callClient (CallGet key) (kv_Get key) c) as [[val' err'] cg] eqn:Hcg.
  assert (Hg : val' = val /\ err' = err /\ calls cg = calls c ++ [CallGet key]
               /\ cleanupOutcomes cg = cleanupOutcomes c /\ world cg = w').
  { unfold callClient in Hcg. rewrite Hget in Hcg. by inversion Hcg. }
  destruct Hg as (-> & -> & Hcalls & Hout & Hw).
  split; [|split].
  - intros [Herr | [-> | ->]].
    + destruct err; [by split | contradiction].
    + destruct err; by split.
    + destruct err; by split.
  - intros desc -> -> Hlive. rewrite Hlive. simpl.
    destruct (Before _ _); [|exact Hcalls].
    unfold callClient. destruct (kv_CAS key _ (world cg)) as [e w''].
    destruct e; simpl; by rewrite Hcalls, <- app_assoc.
  - intros desc -> -> Hneg.
    assert ((0 <? DeletedAt desc) = false) as -> by (apply Z.ltb_ge; lia).
    assert ((DeletedAt desc =? 0) = false) as -> by (apply Z.eqb_neq; lia).
    by split.
Qed.

Lemma writeCalls_app (l1 l2 : list KVCall) :
  writeCalls (l1 ++ l2) = (writeCalls l1 + writeCalls l2)%nat.
Proof.
  induction l1 as [|call l1 IH]; simpl; [reflexivity|].
  destruct call; simpl; lia.
Qed.

Lemma callClient_counts {A : Type} (call : KVCall) (op : W -> A * W) c :
  cleanupOutcomes (callClient call op c).2 = cleanupOutcomes c
  /\ cleanupRuns (callClient call op c).2 = cleanupRuns c
  /\ writeCalls (calls (callClient call op c).2)
     = (writeCalls (calls c) + writeCalls [call])%nat.
Proof.
  unfold callClient. destruct (op (world c)) as [a w']. simpl.
  by rewrite writeCalls_app.
Qed.

Lemma cleanupKey_counts deadline key c :
  (cleanupOutcomes (cleanupKey deadline key c) + writeCalls (calls c)
   = cleanupOutcomes c + writeCalls (calls (cleanupKey deadline key c)))%nat
  /\ cleanupRuns (cleanupKey deadline key c) = cleanupRuns c.
Proof.
  unfold cleanupKey.
  destruct (callClient_counts (CallGet key) (kv_Get key) c) as (Ho & Hr & Hw).
  destruct (callClient (CallGet key) (kv_Get key) c) as [[val err] cg].
  simpl in Ho, Hr, Hw.
  assert (Hskip : (cleanupOutcomes cg + writeCalls (calls c)
                   = cleanupOutcomes c + writeCalls (calls cg))%nat
                  /\ cleanupRuns cg = cleanupRuns c) by (split; lia).
  destruct err; [exact Hskip|].
  destruct val as [|desc|]; try exact Hskip.
  destruct (0 <? DeletedAt desc).
  - destruct (After _ _); [exact Hskip|].
    destruct (callClient_counts (CallDelete key) (kv_Delete key) cg) as (Ho' & Hr' & Hw').
    destruct (callClient (CallDelete key) (kv_Delete key) cg) as [e cd].
    simpl in Ho', Hr', Hw'. unfold cleanupOutcomes in *.
    destruct e; simpl; split; lia.
  - destruct (_ && _); [|exact Hskip].
    destruct (callClient_counts (CallCAS key) (kv_CAS key (cleanup_mutator desc deadline)) cg)
      as (Ho' & Hr' & Hw').
    destruct (callClient (CallCAS key) _ cg) as [e cd].
    simpl in Ho', Hr', Hw'. unfold cleanupOutcomes in *.
    destruct e; simpl; split; lia.
Qed.

Lemma cleanupKeys_counts deadline keys c :
  (cleanupOutcomes (cleanupKeys deadline keys c) + writeCalls (calls c)
   = cleanupOutcomes c + writeCalls (calls (cleanupKeys deadline keys c)))%nat
  /\ cleanupRuns (cleanupKeys deadline keys c) = cleanupRuns c.
Proof.
  revert c. induction keys as [|key rest IH]; intros c; simpl; [by split|].
  destruct (ctx_Err (world c)); [by split|].
  destruct (IH (cleanupKey deadline key c)) as [Hsum Hruns].
  destruct (cleanupKey_counts deadline key c) as [Hsum1 Hruns1].
  split; [lia | congruence].
Qed.

(** X14.  The sweep's counters account for its writes: over a tick, the
    counters of deleted keys, marked keys and failures go up, together, by
    the number of [Delete] and [CAS] calls the sweep made (every write is
    counted once, as a success or as a failure), and the counter of
    cleanup runs goes up by one. *)
Theorem cleanupTick_counts_writes t c :
  (cleanupOutcomes (cleanupTick t c) + writeCalls (calls c)
   = cleanupOutcomes c + writeCalls (calls (cleanupTick t c)))%nat
  /\ cleanupRuns (cleanupTick t c) = S (cleanupRuns c).
Proof.
  unfold cleanupTick, cleanupOldReplicas.
  set (c0 := set_cleanupRuns (S (cleanupRuns c)) c).
  destruct (callClient_counts (CallList EmptyString) (kv_List EmptyString) c0) as (Ho & Hr & Hw).
  destruct (callClient (CallList EmptyString) (kv_List EmptyString) c0) as [[keys err] cl].
  simpl in Ho, Hr, Hw.
  assert (Hc0 : cleanupOutcomes c0 = cleanupOutcomes c /\ cleanupRuns c0 = S (cleanupRuns c)
                /\ calls c0 = calls c) by done.
  destruct Hc0 as (Ho0 & Hr0 & Hc0). rewrite ?Hc0 in Hw.
  destruct err; [split; lia|].
  destruct (cleanupKeys_counts (Add t (dur_neg deletionTimeout)) keys cl) as [Hsum Hruns].
  split; lia.
Qed.

Lemma cleanupKeys_listed deadline keys c :
  exists rest,
    calls (cleanupKeys deadline keys c) = calls c ++ rest
    /\ (forall call, In call rest -> exists key, callKey call = Some key /\ In key keys)
    /\ (ctx_Err (world c) <> None -> rest = []).
Proof.
  revert c. induction keys as [|key keys IH]; intros c; simpl.
  - exists nil. rewrite app_nil_r. by repeat split.
  - destruct (ctx_Err (world c)) eqn:Hctx.
    + exists nil. rewrite app_nil_r. by repeat split.
    + destruct (IH (cleanupKey deadline key c)) as (rest & Hcalls & Hrest & _).
      destruct (cleanupKey_calls deadline key c) as (extra & Hkey & Hextra).
      exists ((CallGet key :: extra) ++ rest). split; [|split].
      * rewrite Hcalls, Hkey. by rewrite <- app_assoc.
      * intros call Hin. apply in_app_or in Hin as [Hin|Hin].
        -- exists key. split; [|by left].
           destruct Hin as [<-|Hin]; [reflexivity|].
           destruct Hextra as [-> | [-> | [-> _]]]; simpl in Hin;
             [contradiction | destruct Hin as [<-|[]]; reflexivity
             | destruct Hin as [<-|[]]; reflexivity].
        -- destruct (Hrest call Hin) as (k & Hk & Hkin). exists k. split; [exact Hk | by right].
      * intros Hdone. by destruct Hdone.
Qed.

(** X15.  The sweep works on the listed keys only and stops when asked to:
    after its [List] call every client call it makes is a [Get], [Delete]
    or [CAS] on a key that [List] returned; it makes no further call when
    [List] fails, and none when the context is already done. *)
Theorem cleanupOldReplicas_listed_keys deadline c keys err w1 :
  kv_List EmptyString (world c) = ((keys, err), w1) ->
  exists rest,
    calls (cleanupOldReplicas deadline c) = calls c ++ CallList EmptyString :: rest
    /\ (forall call, In call rest -> exists key, callKey call = Some key /\ In key keys)
    /\ (err <> None -> rest = [])
    /\ (ctx_Err w1 <> None -> rest = []).
Proof.
  intros Hlist. unfold cleanupOldReplicas, callClient at 1. rewrite Hlist.
  destruct err as [e|].
  - exists nil. by repeat split.
  - match goal with |- context [cleanupKeys _ keys ?c1] =>
      destruct (cleanupKeys_listed deadline keys c1) as (rest & Hcalls & Hrest & Hdone)
    end.
    simpl in Hcalls, Hdone. exists rest. split; [|split; [exact Hrest|split]].
    + rewrite Hcalls. by rewrite <- app_assoc.
    + intros Hne. by destruct Hne.
    + exact Hdone.
Qed.

End CleanupFurther.

(** * The mock rule store *)

Section RuleStoreMockProperties.

Import RuleStoreMock.

Implicit Types m : mockRuleStore.
Implicit Types l : list RuleGroupDesc.

Lemma firstGroup_cons test rg l :
  firstGroup test (rg :: l) = if test rg then Some rg else firstGroup test l.
Proof.
  unfold firstGroup. simpl. destruct (test rg); [reflexivity|].
  by destruct (findIndex test l).
Qed.

Lemma findIndex_lookup test l i :
  findIndex test l = Some i ->
  exists rg, l !! i = Some rg /\ test rg = true
             /\ Forall (fun rg' => test rg' = false) (take i l).
Proof.
  revert i. induction l as [|x l IH]; intros i; simpl; [discriminate|].
  destruct (test x) eqn:Hx.
  - intros [= <-]. exists x. by repeat split.
  - destruct (findIndex test l) as [j|]; [|discriminate].
    intros [= <-]. destruct (IH j eq_refl) as (rg & Hl & Ht & Hpre).
    exists rg. repeat split; [exact Hl | exact Ht |]. simpl. by constructor.
Qed.

Lemma findIndex_None test l :
  findIndex test l = None <-> Forall (fun rg => test rg = false) l.
Proof.
  induction l as [|x l IH]; simpl; [by split|].
  destruct (test x) eqn:Hx.
  - split; [discriminate|]. intros Hall. inversion Hall; congruence.
  - destruct (findIndex test l) as [j|].
    + split; [discriminate|]. intros Hall. inversion Hall as [|? ? _ Hl]; subst.
      by apply IH in Hl.
    + split; [|reflexivity]. intros _. constructor; [exact Hx | by apply IH].
Qed.

Lemma firstGroup_app_none test l1 l2 :
  Forall (fun rg => test rg = false) l1 ->
  firstGroup test (l1 ++ l2) = firstGroup test l2.
Proof.
  induction 1 as [|x l1 Hx _ IH]; simpl; [reflexivity|].
  by rewrite firstGroup_cons, Hx.
Qed.

Lemma firstGroup_none test l :
  Forall (fun rg => test rg = false) l -> firstGroup test l = None.
Proof. intros Hall. unfold firstGroup. by rewrite (proj2 (findIndex_None test l) Hall). Qed.

Lemma firstGroup_found test l i rg :
  findIndex test l = Some i -> l !! i = Some rg -> firstGroup test l = Some rg.
Proof. intros Hi Hl. unfold firstGroup. by rewrite Hi. Qed.

(** The list cut at a found index: the part before has no match. *)
Lemma findIndex_split test l i :
  findIndex test l = Some i ->
  exists rg, l = take i l ++ rg :: drop (S i) l /\ test rg = true
             /\ Forall (fun rg' => test rg' = false) (take i l).
Proof.
  intros Hi. destruct (findIndex_lookup test l i Hi) as (rg & Hl & Ht & Hpre).
  exists rg. repeat split; [|exact Ht|exact Hpre].
  by rewrite <- (take_drop_middle l i rg Hl) at 1.
Qed.

Lemma GetRuleGroup_known m userID namespace group l :
  rules m !! userID = Some l ->
  namespace <> EmptyString ->
  GetRuleGroup m userID namespace group
  = match firstGroup (isGroup namespace group) l with
    | Some rg => (Some rg, None)
    | None => (None, Some ErrGroupNotFound)
    end.
Proof.
  intros Hl Hns. unfold GetRuleGroup, firstGroup. rewrite Hl.
  apply String.eqb_neq in Hns. rewrite Hns.
  destruct (findIndex _ l) as [i|]; [|reflexivity]. by destruct (l !! i).
Qed.

Lemma isGroup_true namespace group rg :
  isGroup namespace group rg = true <-> Namespace rg = namespace /\ Name rg = group.
Proof.
  unfold isGroup. rewrite andb_true_iff, !String.eqb_eq. tauto.
Qed.

Lemma isGroup_other namespace group namespace' group' rg :
  isGroup namespace group rg = true ->
  (namespace', group') <> (namespace, group) ->
  isGroup namespace' group' rg = false.
Proof.
  intros Hrg Hne. destruct (isGroup namespace' group' rg) eqn:Hq; [|reflexivity].
  apply isGroup_true in Hrg as [<- <-]. apply isGroup_true in Hq as [<- <-]. by destruct Hne.
Qed.


Lemma rules_SetRuleGroup m userID namespace group l :
  rules m !! userID = Some l ->
  namespace <> EmptyString ->
  rules (SetRuleGroup m userID namespace group).2
  = <[userID := match findIndex (isGroup namespace (Name group)) l with
                | Some i => <[i := group]> l
                | None => l ++ [group]
                end]> (rules m).
Proof.
  intros Hl Hns. unfold SetRuleGroup, userRulesOf. rewrite Hl.
  apply String.eqb_neq in Hns. rewrite Hns.
  by destruct (findIndex _ l).
Qed.

Lemma GetRuleGroup_of_list m userID namespace group l :
  rules m !! userID = Some l ->
  GetRuleGroup m userID namespace group
  = if String.eqb namespace EmptyString then (None, Some ErrGroupNamespaceNotFound)
    else match firstGroup (isGroup namespace group) l with
         | Some rg => (Some rg, None)
         | None => (None, Some ErrGroupNotFound)
         end.
Proof.
  intros Hl. unfold GetRuleGroup, firstGroup. rewrite Hl.
  destruct (String.eqb namespace EmptyString); [reflexivity|].
  destruct (findIndex _ l) as [i|]; [|reflexivity]. by destruct (l !! i).
Qed.

Lemma firstGroup_replace_other test pre old new post :
  test old = false -> test new = false ->
  firstGroup test (pre ++ new :: post) = firstGroup test (pre ++ old :: post).
Proof.
  intros Hold Hnew. induction pre as [|x pre IH]; simpl.
  - by rewrite !firstGroup_cons, Hold, Hnew.
  - rewrite !firstGroup_cons. by rewrite IH.
Qed.

Lemma firstGroup_app_other test l new :
  test new = false -> firstGroup test (l ++ [new]) = firstGroup test l.
Proof.
  intros Hnew. induction l as [|x l IH]; simpl.
  - by rewrite firstGroup_cons, Hnew.
  - rewrite !firstGroup_cons. by rewrite IH.
Qed.

(** X17.  [SetRuleGroup] touches one group only: under the conditions of the
    round trip, for a tenant that was already known, [GetRuleGroup]
    answers every question about another tenant, or about another
    namespace and name, as it did before. *)
Theorem SetRuleGroup_keeps_other_groups m userID namespace group userID' namespace' group' :
  namespace <> EmptyString ->
  Namespace group = namespace ->
  is_Some (rules m !! userID) ->
  userID' <> userID \/ (namespace', group') <> (namespace, Name group) ->
  GetRuleGroup (SetRuleGroup m userID namespace group).2 userID' namespace' group'
  = GetRuleGroup m userID' namespace' group'.
Proof.
  intros Hns Hgns [l Hl] Hother.
  assert (Hg : isGroup namespace (Name group) group = true) by (by apply isGroup_true).
  destruct (decide (userID' = userID)) as [->|Hu].
  - destruct Hother as [?|Hne]; [contradiction|].
    pose proof (isGroup_other _ _ namespace' group' group Hg Hne) as Hg'.
    rewrite (GetRuleGroup_of_list m _ _ _ l Hl).
    destruct (findIndex (isGroup namespace (Name group)) l) as [i|] eqn:Hi.
    + rewrite (GetRuleGroup_of_list _ _ _ _ (<[i:=group]> l))
        by (rewrite (rules_SetRuleGroup _ _ _ _ l Hl Hns), Hi; apply lookup_insert_eq).
      destruct (findIndex_split _ _ _ Hi) as (old & Hsplit & Hold & _).
      assert (Hlen : (i < length l)%nat).
      { destruct (findIndex_lookup _ _ _ Hi) as (? & Hlk & _). by apply lookup_lt_Some in Hlk. }
      assert (Hins : <[i:=group]> l = take i l ++ group :: drop (S i) l).
      { rewrite Hsplit at 1. rewrite insert_app_r_alt by (rewrite length_take; lia).
        rewrite length_take. replace (i - i `min` length l)%nat with 0%nat by lia.
        reflexivity. }
      pose proof (isGroup_other _ _ namespace' group' old Hold Hne) as Hold'.
      rewrite Hins, (firstGroup_replace_other _ _ old group _ Hold' Hg'), <- Hsplit.
      reflexivity.
    + rewrite (GetRuleGroup_of_list _ _ _ _ (l ++ [group]))
        by (rewrite (rules_SetRuleGroup _ _ _ _ l Hl Hns), Hi; apply lookup_insert_eq).
      by rewrite (firstGroup_app_other _ _ _ Hg').
  - unfold GetRuleGroup. rewrite (rules_SetRuleGroup _ _ _ _ l Hl Hns).
    by rewrite lookup_insert_ne.
Qed.



(** X19.  [DeleteRuleGroup] does not delete: where [GetRuleGroup] finds a
    group, [DeleteRuleGroup] for that namespace and name succeeds and
    [GetRuleGroup] still finds the same group afterwards.  The tenant's
    list becomes the groups before the found one, followed by those groups
    again and the found group; the groups after it are gone. *)
Theorem DeleteRuleGroup_keeps_the_group m userID namespace group rg :
  GetRuleGroup m userID namespace group = (Some rg, None) ->
  (DeleteRuleGroup m userID namespace group).1 = None
  /\ GetRuleGroup (DeleteRuleGroup m userID namespace group).2 userID namespace group
     = (Some rg, None)
  /\ exists l before,
      rules m !! userID = Some l
      /\ before ++ [rg] `prefix_of` l
      /\ Forall (fun rg' => isGroup namespace group rg' = false) before
      /\ rules (DeleteRuleGroup m userID namespace group).2 !! userID
         = Some (before ++ before ++ [rg]).
Proof.
  intros Hget. unfold GetRuleGroup in Hget.
  destruct (rules m !! userID) as [l|] eqn:Hl; [|discriminate].
  destruct (String.eqb_spec namespace EmptyString) as [|Hns]; [discriminate|].
  destruct (findIndex (isGroup namespace group) l) as [i|] eqn:Hi; [|discriminate].
  destruct (l !! i) as [found|] eqn:Hli; [|discriminate].
  injection Hget as ->.
  destruct (findIndex_lookup _ _ _ Hi) as (rg' & Hlk & Hrg & Hpre).
  rewrite Hli in Hlk. injection Hlk as <-.
  assert (Htake : take (S i) l = take i l ++ [rg]) by (by apply take_S_r).
  assert (Hrules : rules (DeleteRuleGroup m userID namespace group).2 !! userID
                   = Some (take i l ++ take i l ++ [rg])).
  { unfold DeleteRuleGroup, userRulesOf. rewrite Hl.
    apply String.eqb_neq in Hns. rewrite Hns, Hi. simpl.
    by rewrite lookup_insert_eq, Htake. }
  split; [|split].
  - unfold DeleteRuleGroup, userRulesOf. rewrite Hl.
    apply String.eqb_neq in Hns. by rewrite Hns, Hi.
  - rewrite (GetRuleGroup_known _ _ _ _ _ Hrules Hns).
    rewrite !(firstGroup_app_none _ _ _ Hpre), firstGroup_cons, Hrg. reflexivity.
  - exists l, (take i l). repeat split; [|exact Hpre|exact Hrules].
    rewrite <- Htake. exists (drop (S i) l). by rewrite take_drop.
Qed.

Lemma map_listedDesc_listForNamespace userID l :
  listForNamespace userID EmptyString l = map (listedDesc userID) l.
Proof. induction l as [|x l IH]; simpl; [reflexivity|]. by rewrite IH. Qed.

(** X20.  The two listings agree: [ListAllRuleGroups] has an entry for a
    tenant exactly when the tenant has a group, and the entry is what
    [ListRuleGroupsForUserAndNamespace] returns for the tenant and the
    empty namespace: one descriptor per group, in order, carrying the
    namespace, name and interval of the group and the tenant's name. *)
Theorem ListAllRuleGroups_agrees_with_listing m userID :
  (ListAllRuleGroups m).1 !! userID
  = match (ListRuleGroupsForUserAndNamespace m userID EmptyString).1 with
    | [] => None
    | listed => Some listed
    end
  /\ (ListRuleGroupsForUserAndNamespace m userID EmptyString).1
     = map (listedDesc userID) (default [] (rules m !! userID)).
Proof.
  unfold ListAllRuleGroups, ListRuleGroupsForUserAndNamespace. simpl.
  rewrite map_lookup_imap, map_listedDesc_listForNamespace. split; [|reflexivity].
  destruct (rules m !! userID) as [[|x l]|]; reflexivity.
Qed.

Lemma shiftDown_length i l :
  (i < length l)%nat -> length (shiftDown i l) = length l.
Proof.
  intros Hi. unfold shiftDown. rewrite !length_app, length_take, !length_drop. lia.
Qed.

Lemma deleteNamespaceLoop_length namespace remaining i l deleted :
  length (deleteNamespaceLoop namespace remaining i l deleted).1.2 = length l.
Proof.
  revert i l deleted. induction remaining as [|remaining IH]; intros i l deleted; simpl;
    [reflexivity|].
  destruct (l !! i) as [rg|] eqn:Hl; [|reflexivity].
  destruct (String.eqb (Namespace rg) namespace); [|apply IH].
  destruct (String.eqb (Name rg) "fail"); [reflexivity|].
  rewrite IH. apply shiftDown_length. by apply lookup_lt_Some in Hl.
Qed.

Lemma deleteNamespaceLoop_none namespace remaining i l deleted :
  (forall j rg, (i <= j)%nat -> l !! j = Some rg -> Namespace rg <> namespace) ->
  deleteNamespaceLoop namespace remaining i l deleted = (None, l, deleted).
Proof.
  revert i. induction remaining as [|remaining IH]; intros i Hnone; simpl; [reflexivity|].
  destruct (l !! i) as [rg|] eqn:Hl; [|reflexivity].
  pose proof (Hnone i rg ltac:(lia) Hl) as Hrg. apply String.eqb_neq in Hrg. rewrite Hrg.
  apply IH. intros j rg' Hj. apply Hnone. lia.
Qed.

Lemma deleteNamespaceLoop_skip namespace k remaining i l deleted :
  (forall j rg, (i <= j < i + k)%nat -> l !! j = Some rg -> Namespace rg <> namespace) ->
  (i + k <= length l)%nat ->
  deleteNamespaceLoop namespace (k + remaining) i l deleted
  = deleteNamespaceLoop namespace remaining (i + k) l deleted.
Proof.
  revert i. induction k as [|k IH]; intros i Hnone Hlen; simpl.
  - by replace (i + 0)%nat with i by lia.
  - destruct (lookup_lt_is_Some_2 l i ltac:(lia)) as [rg Hl]. rewrite Hl.
    pose proof (Hnone i rg ltac:(lia) Hl) as Hrg. apply String.eqb_neq in Hrg. rewrite Hrg.
    rewrite IH; [by replace (S i + k)%nat with (i + S k)%nat by lia | | lia].
    intros j rg' Hj. apply Hnone. lia.
Qed.

(** X21.  [DeleteNamespace] on a namespace with one group: for a known tenant
    and a non-empty namespace, when no group of the tenant is in the
    namespace the store is left as it is; when exactly one is, it is
    removed and the other groups stay in their order, unless the group is
    named [fail], in which case the call fails and the store is left as it
    is. *)
Theorem DeleteNamespace_single_group m userID namespace :
  namespace <> EmptyString ->
  (forall l,
      rules m !! userID = Some l ->
      Forall (fun rg => Namespace rg <> namespace) l ->
      DeleteNamespace m userID namespace = (None, m))
  /\ (forall before rg after,
      rules m !! userID = Some (before ++ rg :: after) ->
      Forall (fun rg' => Namespace rg' <> namespace) before ->
      Forall (fun rg' => Namespace rg' <> namespace) after ->
      Namespace rg = namespace ->
      (Name rg <> "fail"%string ->
         DeleteNamespace m userID namespace
         = (None, set_rules (<[userID := before ++ after]> (rules m)) m))
      /\ (Name rg = "fail"%string ->
          DeleteNamespace m userID namespace = (Some errUnableToDeleteRg, m))).
Proof.
  intros Hns. apply String.eqb_neq in Hns. split.
  - intros l Hl Hnone. unfold DeleteNamespace, userRulesOf. rewrite Hl, Hns.
    rewrite deleteNamespaceLoop_none; [reflexivity|].
    intros j rg _ Hj. rewrite Forall_forall in Hnone. apply Hnone.
    by apply list_elem_of_lookup_2 in Hj.
  - intros before rg after Hl Hbefore Hafter Hrg.
    unfold DeleteNamespace, userRulesOf. rewrite Hl, Hns.
    set (l := before ++ rg :: after).
    assert (Hlen : length l = (length before + S (length after))%nat)
      by (unfold l; rewrite length_app; reflexivity).
    assert (Hat : l !! length before = Some rg) by (unfold l; apply list_lookup_middle; reflexivity).
    rewrite Hlen.
    rewrite (deleteNamespaceLoop_skip namespace (length before) (S (length after)) 0 l false);
      [|intros j rg' Hj Hlk|lia].
    2:{ unfold l in Hlk. rewrite lookup_app_l in Hlk by lia.
        rewrite Forall_forall in Hbefore. apply Hbefore. by apply list_elem_of_lookup_2 in Hlk. }
    simpl. rewrite Hat. rewrite (proj2 (String.eqb_eq _ _) Hrg). split.
    + intros Hname. apply String.eqb_neq in Hname. rewrite Hname.
      assert (Hshift : shiftDown (length before) l
                       = before ++ after ++ drop (length after) (rg :: after)).
      { unfold shiftDown. rewrite Hlen. unfold l.
        rewrite take_app_length.
        replace (S (length before)) with (length before + 1)%nat by lia.
        replace (length before + S (length after) - 1)%nat
          with (length before + length after)%nat by lia.
        rewrite !drop_app_add' by reflexivity. reflexivity. }
      rewrite Hshift.
      assert (Hlast : Forall (fun rg' => Namespace rg' <> namespace)
                        (after ++ drop (length after) (rg :: after)) \/ after = []).
      { destruct after as [|x after']; [by right|]. left.
        apply Forall_app. split; [exact Hafter|].
        change (drop (length (x :: after')) (rg :: x :: after'))
          with (drop (length after') (x :: after')).
        by apply Forall_drop. }
      assert (Hloop : deleteNamespaceLoop namespace (length after) (S (length before))
                        (before ++ after ++ drop (length after) (rg :: after)) true
                      = (None, before ++ after ++ drop (length after) (rg :: after), true)).
      { destruct Hlast as [Hrest | ->]; [|reflexivity].
        apply deleteNamespaceLoop_none. intros j rg' Hj Hlk.
        rewrite lookup_app_r in Hlk by lia.
        rewrite Forall_forall in Hrest. apply Hrest. by apply list_elem_of_lookup_2 in Hlk. }
      rewrite Hloop. f_equal. f_equal. f_equal.
      replace (length before + S (length after) - 1)%nat
        with (length (before ++ after)) by (rewrite length_app; lia).
      rewrite app_assoc. apply take_app_length.
    + intros Hname. apply String.eqb_eq in Hname. by rewrite Hname.
Qed.

(** X22.  [DeleteNamespace] takes at most one group off a tenant's list,
    however many groups the namespace has: the list it leaves is as long
    as the list it found, or one shorter. *)
Theorem DeleteNamespace_removes_at_most_one m userID namespace l :
  rules m !! userID = Some l ->
  exists l',
    rules (DeleteNamespace m userID namespace).2 !! userID = Some l'
    /\ (length l - 1 <= length l' <= length l)%nat.
Proof.
  intros Hl. unfold DeleteNamespace, userRulesOf. rewrite Hl.
  destruct (String.eqb namespace EmptyString); [exists l; simpl; split; [exact Hl | lia]|].
  pose proof (deleteNamespaceLoop_length namespace (length l) 0 l false) as Hlen.
  destruct (deleteNamespaceLoop namespace (length l) 0 l false) as [[err array] deleted].
  simpl in Hlen. destruct deleted; simpl.
  - eexists. rewrite lookup_insert_eq. split; [reflexivity|]. rewrite length_take. lia.
  - exists l. split; [exact Hl | lia].
Qed.

End RuleStoreMockProperties.


(** * The further properties on the fixtures *)

Section FurtherRuns.

Import MemKV Runs RuleStoreMock Fixtures.

(** A tracker built with HA tracking off accepts every sample. *)
Lemma disabled_tracker_accepts_everything_witness :
  (EnableHATracker disabledCfg = false /\ UpdateTimeoutJitterMax disabledCfg < 2 ^ 62)
  /\ exists t,
      NewHATracker disabledCfg None 0 emptyWorld = Returns (Some t, None)
      /\ forall userID replicaGroup replica now,
          CheckReplica userID replicaGroup replica now t = (None, t).
Proof.
  assert (H1 : EnableHATracker disabledCfg = false) by reflexivity.
  assert (H2 : UpdateTimeoutJitterMax disabledCfg < 2 ^ 62) by (vm_compute; reflexivity).
  split; [by split|].
  exact (proj1 (disabled_tracker_accepts_everything disabledCfg None 0 emptyWorld H1) H2).
Defined.

(** Tenant [u1] is capped at one group and has one: a sample for that
    group, 20s after the cached heartbeat, goes to the slow path. *)
Lemma CheckReplica_known_group_not_capped_witness :
  let c := electedR1 (Some (fun _ => 1)) in
  (EnableHATracker (cfg c) = true
   /\ elected c !! makeKey "u1" "c1" = Some (mkReplicaDesc "R1" 0 0)
   /\ dur_add (UpdateTimeout (cfg c)) (updateTimeoutJitter c)
      <= Sub (20 * Second) (timestamp_Time 0))
  /\ CheckReplica "u1" "c1" "R2" (20 * Second) c = slowPath "u1" "c1" "R2" (20 * Second) c.
Proof.
  intros c.
  assert (H1 : EnableHATracker (cfg c) = true) by reflexivity.
  assert (H2 : elected c !! makeKey "u1" "c1" = Some (mkReplicaDesc "R1" 0 0))
    by (vm_compute; reflexivity).
  assert (H3 : dur_add (UpdateTimeout (cfg c)) (updateTimeoutJitter c)
               <= Sub (20 * Second) (timestamp_Time (ReceivedAt (mkReplicaDesc "R1" 0 0))))
    by (vm_compute; intros Hc; discriminate Hc).
  split; [by repeat split|].
  exact (CheckReplica_known_group_not_capped "u1" "c1" "R2" (20 * Second) c
           (mkReplicaDesc "R1" 0 0) H1 H2 H3).
Defined.

(** Update timeout 15s, jitter of up to 5s, failover timeout 30s, and a
    draw of 7s: the jitter is 2s and the update window ends at 17s. *)
Lemma valid_config_update_window_witness :
  let t := mkHATracker jitterCfg (2 * Second) None ∅ ∅ ∅ ∅ ∅ ∅
             0%nat 0%nat 0%nat 0%nat emptyWorld [] in
  (Validate jitterCfg = None
   /\ NewHATracker jitterCfg None (7 * Second) emptyWorld = Returns (Some t, None))
  /\ cfg t = jitterCfg
  /\ - UpdateTimeoutJitterMax jitterCfg <= updateTimeoutJitter t
     <= UpdateTimeoutJitterMax jitterCfg
  /\ dur_add (UpdateTimeout jitterCfg) (updateTimeoutJitter t) + Second
     <= FailoverTimeout jitterCfg.
Proof.
  intros t.
  assert (H1 : Validate jitterCfg = None) by (vm_compute; reflexivity).
  assert (H2 : minDuration <= UpdateTimeout jitterCfg - UpdateTimeoutJitterMax jitterCfg)
    by (vm_compute; intros Hc; discriminate Hc).
  assert (H3 : UpdateTimeout jitterCfg + UpdateTimeoutJitterMax jitterCfg + Second <= maxDuration)
    by (vm_compute; intros Hc; discriminate Hc).
  assert (H4 : NewHATracker jitterCfg None (7 * Second) emptyWorld = Returns (Some t, None))
    by (vm_compute; reflexivity).
  split; [by split|].
  exact (valid_config_update_window jitterCfg None (7 * Second) emptyWorld t None
           H1 H2 H3 H4).
Defined.

(** [R1] is elected and its heartbeat is 5s old: the mutator does
    nothing for [R1] and rejects [R2]. *)
Lemma no_takeover_while_fresh_witness :
  let c := electedR1 None in
  let stored := KVDesc (mkReplicaDesc "R1" 0 0) in
  (dur_add (UpdateTimeout (cfg c)) (updateTimeoutJitter c) <= FailoverTimeout (cfg c)
   /\ "R2"%string <> "R1"%string
   /\ checkKVStore_mutator c "R1" (5 * Second) 0 stored = (KVNil, false, None))
  /\ checkKVStore_mutator c "R2" (5 * Second) 0 stored
     = (KVNil, false, Some (ErrReplicasNotMatch (mkReplicasNotMatchError "R2" "R1"))).
Proof.
  intros c stored.
  assert (H1 : dur_add (UpdateTimeout (cfg c)) (updateTimeoutJitter c) <= FailoverTimeout (cfg c))
    by (vm_compute; intros Hc; discriminate Hc).
  assert (H2 : "R2"%string <> "R1"%string) by discriminate.
  assert (H3 : checkKVStore_mutator c "R1" (5 * Second) 0 stored = (KVNil, false, None))
    by (vm_compute; reflexivity).
  split; [by repeat split|].
  exact (no_takeover_while_fresh c "R1" "R2" (5 * Second) 0 0 stored H1 H2 H3).
Defined.

(** [R2] takes over at 30s; on the descriptor it wrote, a retry at 30s
    does nothing for [R2] and rejects [R1]. *)
Lemma checkKVStore_mutator_settles_witness :
  let c := electedR1 None in
  let written := mkReplicaDesc "R2" 30000 0 in
  (int64_ms (30 * Second)
   /\ Millisecond <= dur_add (UpdateTimeout (cfg c)) (updateTimeoutJitter c)
   /\ Millisecond <= FailoverTimeout (cfg c)
   /\ checkKVStore_mutator c "R2" (30 * Second) 0 (KVDesc (mkReplicaDesc "R1" 0 0))
      = (KVDesc written, true, None))
  /\ checkKVStore_mutator c "R2" (30 * Second) 0 (KVDesc written) = (KVNil, false, None)
  /\ checkKVStore_mutator c "R1" (30 * Second) 0 (KVDesc written)
     = (KVNil, false, Some (ErrReplicasNotMatch (mkReplicasNotMatchError "R1" "R2"))).
Proof.
  intros c written.
  assert (H1 : int64_ms (30 * Second))
    by (split; vm_compute; intros Hc; discriminate Hc).
  assert (H2 : Millisecond <= dur_add (UpdateTimeout (cfg c)) (updateTimeoutJitter c))
    by (vm_compute; intros Hc; discriminate Hc).
  assert (H3 : Millisecond <= FailoverTimeout (cfg c))
    by (vm_compute; intros Hc; discriminate Hc).
  assert (H4 : checkKVStore_mutator c "R2" (30 * Second) 0 (KVDesc (mkReplicaDesc "R1" 0 0))
               = (KVDesc written, true, None)) by (vm_compute; reflexivity).
  split; [by repeat split|].
  destruct (checkKVStore_mutator_settles c "R2" (30 * Second) 0 0
              (KVDesc (mkReplicaDesc "R1" 0 0)) written true H1 H2 H3 H4) as [Hsame Hother].
  split; [exact Hsame | apply Hother; discriminate].
Defined.

(** Two notifications to an empty tracker, one for [u1/c1] and one for a
    key without separator: only the first is cached, and its gauge holds
    5 (seconds) for a [ReceivedAt] of 5000 (milliseconds). *)
Lemma watch_keeps_keys_and_gauge_witness :
  let events := [("u1/c1"%string, mkReplicaDesc "R1" 5000 0);
                 ("u1"%string, mkReplicaDesc "R1" 5000 0)] in
  let c := watchEvents events run0 in
  (emptyCache run0 /\ electedReplicaTimestamp run0 = ∅)
  /\ (forall key, is_Some (elected c !! key) -> hasSeparator key = true)
  /\ electedReplicaTimestamp c !! ("u1"%string, "c1"%string) = Some 5.
Proof.
  intros events c.
  assert (H1 : emptyCache run0) by (split; reflexivity).
  assert (H2 : electedReplicaTimestamp run0 = ∅) by reflexivity.
  split; [by split|].
  destruct (watch_keeps_keys_and_gauge events run0 H1 H2) as (Hsep & Hgauge & _).
  split; [exact Hsep|].
  apply (Hgauge "u1/c1"%string (mkReplicaDesc "R1" 5000 0)); vm_compute; reflexivity.
Defined.

(** After the notifications for two groups of [u1] the refresh sets the
    gauge of [u1] to the size of its set of groups. *)
Lemma updateUserReplicaGroupCount_gauge_witness :
  let events := [("u1/c1"%string, mkReplicaDesc "R1" 5000 0);
                 ("u1/c2"%string, mkReplicaDesc "R1" 6000 0)] in
  let groups : gset string := {[ "c1"%string; "c2"%string ]} in
  (emptyCache run0 /\ replicaGroups (watchEvents events run0) !! "u1"%string = Some groups)
  /\ userReplicaGroupCount (updateUserReplicaGroupCount (watchEvents events run0)) !! "u1"%string
     = Some (size groups)
  /\ (0 < size groups)%nat.
Proof.
  intros events groups.
  assert (H1 : emptyCache run0) by (split; reflexivity).
  assert (H2 : replicaGroups (watchEvents events run0) !! "u1"%string = Some groups)
    by (vm_compute; reflexivity).
  split; [by split|].
  exact (proj2 updateUserReplicaGroupCount_gauge events run0 "u1"%string groups H1 H2).
Defined.

(** The sweep at 31 min marks the descriptor of [R1]: the marked
    descriptor is a tombstone, [R2] is elected over it at once, and its
    notification drops the key from the cache. *)
Lemma marked_descriptor_is_tombstone_witness :
  let desc := mkReplicaDesc "R1" 0 0 in
  let marked := mkReplicaDesc "R1" 0 1860000 in
  (int64_ms (31 * Minute) /\ Millisecond <= 31 * Minute
   /\ cleanup_mutator desc (1 * Minute) (31 * Minute) (KVDesc desc) = (KVDesc marked, true, None))
  /\ 0 < DeletedAt marked
  /\ checkKVStore_mutator (electedR1 None) "R2" (31 * Minute) 0 (KVDesc marked)
     = (KVDesc (freshDesc "R2" (31 * Minute)), true, None)
  /\ elected (watchCallback "u1/c1" marked (electedR1 None)).2 !! "u1/c1"%string = None.
Proof.
  intros desc marked.
  assert (H1 : int64_ms (31 * Minute))
    by (split; vm_compute; intros Hc; discriminate Hc).
  assert (H2 : Millisecond <= 31 * Minute) by (vm_compute; intros Hc; discriminate Hc).
  assert (H3 : cleanup_mutator desc (1 * Minute) (31 * Minute) (KVDesc desc)
               = (KVDesc marked, true, None)) by (vm_compute; reflexivity).
  split; [by repeat split|].
  destruct (marked_descriptor_is_tombstone desc (1 * Minute) (31 * Minute) (KVDesc desc)
              marked true H1 H2 H3) as (Hdel & Hslow & _ & Hwatch).
  split; [exact Hdel|]. split; [apply Hslow|].
  apply (Hwatch (electedR1 None) "u1/c1"%string "u1"%string "c1"%string).
  vm_compute; reflexivity.
Defined.

(** A sweep with its deadline at 1 min finds the live descriptor of
    [u1/c1], received at 0: it reads the key and marks it by [CAS]. *)
Lemma cleanupKey_live_descriptor_witness :
  let c := electedR1 None in
  let desc := mkReplicaDesc "R1" 0 0 in
  kv_Get "u1/c1" (world c) = ((KVDesc desc, None), world c)
  /\ calls (cleanupKey (1 * Minute) "u1/c1" c)
     = calls c ++ [CallGet "u1/c1"] ++ [CallCAS "u1/c1"].
Proof.
  intros c desc.
  assert (H1 : kv_Get "u1/c1" (world c) = ((KVDesc desc, None), world c))
    by (vm_compute; reflexivity).
  split; [exact H1|].
  exact (proj1 (proj2 (cleanupKey_live_descriptor (1 * Minute) "u1/c1" c
                         (KVDesc desc) None (world c) H1))
           desc eq_refl eq_refl eq_refl).
Defined.

(** The store holds [u1/c1] only: every call of the sweep after [List]
    is about that key. *)
Lemma cleanupOldReplicas_listed_keys_witness :
  let c := electedR1 None in
  kv_List EmptyString (world c) = ((["u1/c1"%string], None), world c)
  /\ exists rest,
      calls (cleanupOldReplicas (1 * Minute) c) = calls c ++ CallList EmptyString :: rest
      /\ (forall call, In call rest ->
            exists key, callKey call = Some key /\ In key ["u1/c1"%string]).
Proof.
  intros c.
  assert (H1 : kv_List EmptyString (world c) = ((["u1/c1"%string], None), world c))
    by (vm_compute; reflexivity).
  split; [exact H1|].
  destruct (cleanupOldReplicas_listed_keys (1 * Minute) c ["u1/c1"%string] None (world c) H1)
    as (rest & Hcalls & Hrest & _).
  exists rest. split; [exact Hcalls | exact Hrest].
Defined.


(** Setting a second group for [user1] leaves the group of [user2] to be
    found as before. *)
Lemma SetRuleGroup_keeps_other_groups_witness :
  let m := newMockRuleStore mockRules ∅ in
  ("namespace1"%string <> EmptyString
   /\ Namespace user1_group2 = "namespace1"%string
   /\ is_Some (rules m !! "user1"%string))
  /\ GetRuleGroup (SetRuleGroup m "user1" "namespace1" user1_group2).2
       "user2" "namespace1" "group1"
     = GetRuleGroup m "user2" "namespace1" "group1".
Proof.
  intros m.
  assert (H1 : "namespace1"%string <> EmptyString) by discriminate.
  assert (H2 : Namespace user1_group2 = "namespace1"%string) by reflexivity.
  assert (H3 : is_Some (rules m !! "user1"%string))
    by (exists [user1_group1]; vm_compute; reflexivity).
  split; [by repeat split|].
  apply (SetRuleGroup_keeps_other_groups m "user1" "namespace1" user1_group2
           "user2" "namespace1" "group1" H1 H2 H3).
  left. discriminate.
Defined.


(** [DeleteRuleGroup] of [group1] in [mockRulesNamespaces]: the group is
    still found, and the group after it is gone. *)
Lemma DeleteRuleGroup_keeps_the_group_witness :
  let m := newMockRuleStore mockRulesNamespaces ∅ in
  GetRuleGroup m "user1" "namespace1" "group1" = (Some user1_group1, None)
  /\ (DeleteRuleGroup m "user1" "namespace1" "group1").1 = None
  /\ GetRuleGroup (DeleteRuleGroup m "user1" "namespace1" "group1").2
       "user1" "namespace1" "group1"
     = (Some user1_group1, None).
Proof.
  intros m.
  assert (H1 : GetRuleGroup m "user1" "namespace1" "group1" = (Some user1_group1, None))
    by (vm_compute; reflexivity).
  split; [exact H1|].
  destruct (DeleteRuleGroup_keeps_the_group m "user1" "namespace1" "group1" user1_group1 H1)
    as (Hd & Hg & _).
  by split.
Defined.

(** [DeleteNamespace] of [namespace1] in [mockRulesNamespaces] removes
    [group1] and keeps the group of [namespace2]. *)
Lemma DeleteNamespace_single_group_witness :
  let m := newMockRuleStore mockRulesNamespaces ∅ in
  ("namespace1"%string <> EmptyString
   /\ rules m !! "user1"%string = Some ([] ++ user1_group1 :: [user1_fail]))
  /\ DeleteNamespace m "user1" "namespace1"
     = (None, set_rules (<["user1"%string := [] ++ [user1_fail]]> (rules m)) m).
Proof.
  intros m.
  assert (H1 : "namespace1"%string <> EmptyString) by discriminate.
  assert (H2 : rules m !! "user1"%string = Some ([] ++ user1_group1 :: [user1_fail]))
    by (vm_compute; reflexivity).
  split; [by split|].
  destruct (DeleteNamespace_single_group m "user1" "namespace1" H1) as [_ Hone].
  destruct (Hone [] user1_group1 [user1_fail] H2) as [Hdel _].
  - constructor.
  - constructor; [discriminate | constructor].
  - reflexivity.
  - apply Hdel. discriminate.
Defined.

(** [DeleteNamespace] of [namespace1] in [mockRulesNamespaces] leaves
    [user1] a list of one or two groups. *)
Lemma DeleteNamespace_removes_at_most_one_witness :
  let m := newMockRuleStore mockRulesNamespaces ∅ in
  rules m !! "user1"%string = Some [user1_group1; user1_fail]
  /\ exists l',
      rules (DeleteNamespace m "user1" "namespace1").2 !! "user1"%string = Some l'
      /\ (1 <= length l' <= 2)%nat.
Proof.
  intros m.
  assert (H1 : rules m !! "user1"%string = Some [user1_group1; user1_fail])
    by (vm_compute; reflexivity).
  split; [exact H1|].
  exact (DeleteNamespace_removes_at_most_one m "user1" "namespace1"
           [user1_group1; user1_fail] H1).
Defined.

End FurtherRuns.
